(** * whatsapp-media-date-to-exif: the per-file pipeline of [main.py]

    A shallow embedding of [main.py] and the properties of its
    specification.  Python values are modelled as follows.

    - a [str] is the list of its code points ([N]); a [bytes] value is a
      list of [Byte.byte]; [str.encode('utf-8')] and
      [bytes.decode('utf-8')] are the strict UTF-8 codec;
    - [re.search] is a matcher for the two patterns of the program, which
      are sequences of single-character atoms, some of them in groups;
    - the file system, the image library and the reporters are a [world]
      threaded through a state-and-exception monad;
    - the [File] dataclass is a record; the functions that mutate it and
      return it are functions from [File] to [File]. *)

From Stdlib Require Import NArith Ascii String Lia.
From Stdlib.Strings Require Import Byte.
From stdpp Require Import base option list gmap strings.

Local Open Scope N_scope.

(** ** Text *)

Module Text.

(** A Python [str]: its code points, at most U+10FFFF each. *)
Abbreviation str := (list N).

(** A Python [bytes]. *)
Abbreviation bytes := (list byte).

(** A literal of the program, written as a Rocq string of ASCII
    characters. *)
Definition py (s : string) : str :=
  N_of_ascii <$> list_ascii_of_string s.

Definition surrogate (c : N) : bool := (0xD800 <=? c) && (c <=? 0xDFFF).

(** The code points UTF-8 can carry. *)
Definition scalar (c : N) : bool := (c <? 0x110000) && negb (surrogate c).

Definition n2b (n : N) : byte :=
  match Byte.of_N n with Some b => b | None => x00 end.

(** [c.encode('utf-8')] for one character; [None] is UnicodeEncodeError
    (a lone surrogate). *)
Definition encode_char (c : N) : option bytes :=
  if c <? 0x80 then Some [n2b c]
  else if c <? 0x800 then Some [n2b (0xC0 + c / 64); n2b (0x80 + c mod 64)]
  else if c <? 0x10000 then
    if surrogate c then None
    else Some [n2b (0xE0 + c / 4096); n2b (0x80 + (c / 64) mod 64);
               n2b (0x80 + c mod 64)]
  else if c <? 0x110000 then
    Some [n2b (0xF0 + c / 262144); n2b (0x80 + (c / 4096) mod 64);
          n2b (0x80 + (c / 64) mod 64); n2b (0x80 + c mod 64)]
  else None.

(** [s.encode('utf-8')]. *)
Fixpoint encode (s : str) : option bytes :=
  match s with
  | [] => Some []
  | c :: s' =>
      match encode_char c, encode s' with
      | Some b, Some bs => Some (b ++ bs)
      | _, _ => None
      end
  end.

Definition continuation (b : byte) : bool :=
  (0x80 <=? Byte.to_N b) && (Byte.to_N b <=? 0xBF).

(** [b.decode('utf-8')], strict: [None] is UnicodeDecodeError (a stray or
    missing continuation byte, an overlong form, a surrogate, a value
    above U+10FFFF). *)
Fixpoint decode (bs : bytes) : option str :=
  match bs with
  | [] => Some []
  | b0 :: r0 =>
      let n0 := Byte.to_N b0 in
      if n0 <? 0x80 then cons n0 <$> decode r0
      else if (0xC2 <=? n0) && (n0 <=? 0xDF) then
        match r0 with
        | b1 :: r1 =>
            let c := (n0 - 0xC0) * 64 + (Byte.to_N b1 - 0x80) in
            if continuation b1 then cons c <$> decode r1 else None
        | _ => None
        end
      else if (0xE0 <=? n0) && (n0 <=? 0xEF) then
        match r0 with
        | b1 :: b2 :: r2 =>
            let c := (n0 - 0xE0) * 4096 + (Byte.to_N b1 - 0x80) * 64
                     + (Byte.to_N b2 - 0x80) in
            if continuation b1 && continuation b2
               && (0x800 <=? c) && negb (surrogate c)
            then cons c <$> decode r2 else None
        | _ => None
        end
      else if (0xF0 <=? n0) && (n0 <=? 0xF4) then
        match r0 with
        | b1 :: b2 :: b3 :: r3 =>
            let c := (n0 - 0xF0) * 262144 + (Byte.to_N b1 - 0x80) * 4096
                     + (Byte.to_N b2 - 0x80) * 64 + (Byte.to_N b3 - 0x80) in
            if continuation b1 && continuation b2 && continuation b3
               && (0x10000 <=? c) && (c <? 0x110000)
            then cons c <$> decode r3 else None
        | _ => None
        end
      else None
  end.

(** [needle in haystack] for strings. *)
Fixpoint starts_with (p s : str) : bool :=
  match p, s with
  | [], _ => true
  | a :: p', b :: s' => (b =? a) && starts_with p' s'
  | _ :: _, [] => false
  end.

Fixpoint contains (needle s : str) : bool :=
  starts_with needle s ||
  match s with
  | [] => false
  | _ :: s' => contains needle s'
  end.

End Text.
Export Text.

(** ** Regular expressions: the fragment [re.search] is used on *)

Module Re.

Section Digits.

(** Python's [\d] in a [str] pattern is the Unicode category Nd: the ASCII
    digits and the decimal digits of other scripts.  The second part
    belongs to the interpreter's Unicode database; it is the parameter
    [Nd_other], consulted only for scalar values above U+007F. *)
Variable Nd_other : N -> bool.

Definition ascii_digit (c : N) : bool := (48 <=? c) && (c <=? 57).

Definition is_digit (c : N) : bool :=
  ascii_digit c || ((0x80 <=? c) && scalar c && Nd_other c).

(** One character of a pattern: a literal (also an escaped one, [\.]) or
    [\d]. *)
Inductive atom := Lit (c : N) | Digit.

Definition atom_matches (a : atom) (c : N) : bool :=
  match a with
  | Lit x => c =? x
  | Digit => is_digit c
  end.

(** A pattern: a sequence of pieces, each a run of atoms; a [Group] is a
    parenthesised (capturing) run. *)
Inductive piece := Plain (l : list atom) | Group (l : list atom).

(** [a{n}]. *)
Definition times (n : nat) (a : atom) : list atom := replicate n a.

Definition lits (s : string) : list atom := Lit <$> py s.

(** The text matched by a run of atoms at the start of [s], with the rest
    of [s]. *)
Fixpoint match_atoms (l : list atom) (s : str) : option (str * str) :=
  match l with
  | [] => Some ([], s)
  | a :: l' =>
      match s with
      | c :: s' =>
          if atom_matches a c then
            '(m, r) ← match_atoms l' s'; Some (c :: m, r)
          else None
      | [] => None
      end
  end.

(** A match of the whole pattern at the start of [s]: the texts of its
    groups, in order. *)
Fixpoint match_here (p : list piece) (s : str) : option (list str) :=
  match p with
  | [] => Some []
  | Plain l :: p' => '(_, r) ← match_atoms l s; match_here p' r
  | Group l :: p' =>
      '(m, r) ← match_atoms l s; gs ← match_here p' r; Some (m :: gs)
  end.

(** [re.search(p, s)]: the match at the leftmost position that has one,
    as the list of its groups. *)
Fixpoint search (p : list piece) (s : str) : option (list str) :=
  match match_here p s with
  | Some gs => Some gs
  | None =>
      match s with
      | [] => None
      | _ :: s' => search p s'
      end
  end.

End Digits.

End Re.
Export Re.

(** ** Paths: [os.path] on a POSIX system *)

Module Os_path.

Definition sep : N := 47.
Definition extsep : N := 46.

(** [os.path.join(a, b)]. *)
Definition join (a b : str) : str :=
  match b with
  | c :: _ => if c =? sep then b
              else match last a with
                   | None => b
                   | Some z => if z =? sep then a ++ b else a ++ sep :: b
                   end
  | [] => match last a with
          | None => b
          | Some z => if z =? sep then a ++ b else a ++ sep :: b
          end
  end.

(** [s.rfind(c)] when the first character of [s] has index [i]: the
    greatest index holding [c], or [-1]. *)
Fixpoint rfind_from (c : N) (s : str) (i : Z) : Z :=
  match s with
  | [] => (-1)%Z
  | x :: s' =>
      let r := rfind_from c s' (i + 1)%Z in
      if (0 <=? r)%Z then r else if x =? c then i else (-1)%Z
  end.

Definition rfind (c : N) (s : str) : Z := rfind_from c s 0.

(** [s[i:j]] for [0 <= i]. *)
Definition slice (s : str) (i j : Z) : str :=
  take (Z.to_nat (j - i)) (drop (Z.to_nat i) s).

(** [os.path.splitext(p)]: the extension starts at the last dot of the
    last component, unless only dots come before it there. *)
Definition splitext (p : str) : str * str :=
  let sepIndex := rfind sep p in
  let dotIndex := rfind extsep p in
  if (sepIndex <? dotIndex)%Z
     && existsb (fun c => negb (c =? extsep)) (slice p (sepIndex + 1) dotIndex)
  then (take (Z.to_nat dotIndex) p, drop (Z.to_nat dotIndex) p)
  else (p, []).

End Os_path.

(** ** The environment: files, image handles, reporters *)

Module Env.

(** A value of an EXIF tag as [piexif.load] returns it: [bytes] for the
    ASCII and undefined types, something else (an [int], a tuple) for the
    numeric ones. *)
Inductive tag_value := BytesV (b : bytes) | OtherV.

(** An IFD: the tags in the order of the dictionary. *)
Abbreviation ifd := (list (N * tag_value)).

(** The [bytes] of an EXIF segment, kept symbolic: [Block d] is any
    segment [piexif.load] reads and whose ['Exif'] IFD is [d], among them
    [piexif.dump({'Exif': d})]; [Unreadable] is one [piexif.load] raises
    on; [NoBytes] is [b'']. *)
Inductive segment := NoBytes | Block (d : ifd) | Unreadable.

(** What a regular file holds: an image PIL identifies, with its pixels
    and its EXIF segment ([NoBytes] when it has none), or anything else. *)
Inductive content := Picture (pixels : N) (exif : segment) | Opaque.

Inductive exn :=
| AssertionError (msg : str)
| FileNotFoundError (path : str)
| FileExistsError (path : str)
| IsADirectoryError (path : str)
| PermissionError (path : str)
| UnidentifiedImageError (path : str)
| InvalidImageDataError
| UnicodeEncodeError.

(** What the [logging] logger is given. *)
Inductive record :=
| FoundExif
| ParsedDate (parsed_date : option str)
| NewExif (d : ifd)
| Saved (new_file_path : str)
| Repr (filename : str).

(** The output of the run: spinner calls with their text, and logger
    records. *)
Inductive event :=
| SpinnerStart (text : str)
| SpinnerText (text : str)
| SpinnerInfo (text : str)
| SpinnerSucceed (text : str)
| LoggerInfo (r : record).

(** Paths are keys: two spellings of one location are two paths, and a
    directory does not need its parent. *)
Record world := World {
  files : gmap str content;   (* the regular files *)
  dirs : gset str;            (* the directories *)
  denied : str -> bool;       (* where the process may not write or unlink *)
  live : gset nat;            (* the image handles that are open *)
  fresh : nat;                (* the next handle *)
  out : list event            (* the output so far, oldest first *)
}.

(** An image object of PIL: its handle and what it read when opened. *)
Record image := Image { handle : nat; pixels_of : N; info_exif : segment }.

Inductive res (A : Type) := Val (a : A) | Exc (e : exn).
Arguments Val {A} a.
Arguments Exc {A} e.

Definition M (A : Type) : Type := world -> res A * world.

Definition ret {A} (a : A) : M A := fun w => (Val a, w).
Definition raise {A} (e : exn) : M A := fun w => (Exc e, w).
Definition bind {A B} (m : M A) (k : A -> M B) : M B :=
  fun w => match m w with
           | (Val a, w') => k a w'
           | (Exc e, w') => (Exc e, w')
           end.

(** [try: m except Exception as e: h(e)]. *)
Definition try_except {A} (m : M A) (h : exn -> M A) : M A :=
  fun w => match m w with
           | (Val a, w') => (Val a, w')
           | (Exc e, w') => h e w'
           end.

(** The world after [e] is written out. *)
Definition logged (e : event) (w : world) : world :=
  World (files w) (dirs w) (denied w) (live w) (fresh w) (out w ++ [e]).

Definition emit (e : event) : M unit := fun w => (Val tt, logged e w).

Definition with_files (f : gmap str content) (w : world) : world :=
  World f (dirs w) (denied w) (live w) (fresh w) (out w).

(** Two worlds with the same files and directories. *)
Definition same_store (w w' : world) : Prop :=
  files w' = files w /\ dirs w' = dirs w /\ denied w' = denied w.

(** A computation that only adds to the output. *)
Definition grows {A} (m : M A) : Prop :=
  forall w r w', m w = (r, w') -> exists rest, out w' = out w ++ rest.

(** [os.path.exists(p)]. *)
Definition exists_ (p : str) : M bool :=
  fun w => (Val (bool_decide (is_Some (files w !! p))
                 || bool_decide (p ∈ dirs w)), w).

(** [os.makedirs(p, exist_ok=True)]. *)
Definition makedirs (p : str) : M unit :=
  fun w =>
    match p with
    | [] => (Exc (FileNotFoundError p), w)
    | _ =>
        if bool_decide (p ∈ dirs w) then (Val tt, w)
        else if bool_decide (is_Some (files w !! p))
        then (Exc (FileExistsError p), w)
        else if denied w p then (Exc (PermissionError p), w)
        else (Val tt, World (files w) ({[p]} ∪ dirs w) (denied w) (live w)
                            (fresh w) (out w))
    end.

(** [os.remove(p)]. *)
Definition remove (p : str) : M unit :=
  fun w =>
    match files w !! p with
    | Some _ =>
        if denied w p then (Exc (PermissionError p), w)
        else (Val tt, with_files (delete p (files w)) w)
    | None =>
        if bool_decide (p ∈ dirs w) then (Exc (IsADirectoryError p), w)
        else (Exc (FileNotFoundError p), w)
    end.

(** Reading the file at [p] as an image, without keeping anything open:
    [with open(p, 'rb') as f: Image.open(f)]. *)
Definition read_image (p : str) : M (N * segment) :=
  fun w =>
    match files w !! p with
    | Some (Picture px ex) => (Val (px, ex), w)
    | Some Opaque => (Exc (UnidentifiedImageError p), w)
    | None =>
        if bool_decide (p ∈ dirs w) then (Exc (IsADirectoryError p), w)
        else (Exc (FileNotFoundError p), w)
    end.

(** [Image.open(p)]: the image object keeps the file open. *)
Definition Image_open (p : str) : M image :=
  bind (read_image p) (fun '(px, ex) w =>
    (Val (Image (fresh w) px ex),
     World (files w) (dirs w) (denied w) ({[fresh w]} ∪ live w)
           (S (fresh w)) (out w))).

(** [img.save(p, exif=b)]: the pixels of [img] with the segment [b]. *)
Definition save (img : image) (p : str) (b : segment) : M unit :=
  fun w =>
    if bool_decide (p ∈ dirs w) then (Exc (IsADirectoryError p), w)
    else if denied w p then (Exc (PermissionError p), w)
    else (Val tt, with_files (<[p := Picture (pixels_of img) b]> (files w)) w).

(** [img.close()]. *)
Definition close (img : image) : M unit :=
  fun w => (Val tt, World (files w) (dirs w) (denied w)
                          (live w ∖ {[handle img]}) (fresh w) (out w)).

(** [piexif.dump({'Exif': d})]. *)
Definition piexif_dump (d : ifd) : segment := Block d.

(** [piexif.load(b).get('Exif')]. *)
Definition piexif_load_Exif (b : segment) : M ifd :=
  match b with
  | Block d => ret d
  | NoBytes | Unreadable => raise InvalidImageDataError
  end.

End Env.

Notation "'let*' x ':=' m 'in' k" := (Env.bind m (fun x => k))
  (at level 10, x pattern, m at level 100, k at level 200).
Notation "m '>>' k" := (Env.bind m (fun _ => k))
  (at level 90, right associativity).

(** ** The program *)

Module Main.
Import Env.

(** The dataclass [File].  [parsed_date] is declared a [str]; the program
    also compares it with [None], so the field holds either. *)
Record File := mkFile {
  filename : str;
  file_path : str;
  new_file_path : str;
  extension : str;
  parsed_date : option str;
  exif_bytes : segment
}.

Definition set_parsed_date (v : option str) (f : File) : File :=
  mkFile (filename f) (file_path f) (new_file_path f) (extension f) v
         (exif_bytes f).

Definition set_exif_bytes (b : segment) (f : File) : File :=
  mkFile (filename f) (file_path f) (new_file_path f) (extension f)
         (parsed_date f) b.

Definition set_new_file_path (p : str) (f : File) : File :=
  mkFile (filename f) (file_path f) p (extension f) (parsed_date f)
         (exif_bytes f).

(** A [File] as [get_files_from_path] creates it when [main] calls it
    (without an [output_path]). *)
Definition discovered (filename file_path extension : str) : File :=
  mkFile filename file_path [] extension (Some []) NoBytes.

(** The namespace of [parse_arguments]. *)
Record Args := mkArgs {
  input_path : str;
  output_path : str;
  recursive : bool;
  overwrite : bool;
  keep_original_path : bool
}.

(** How an f-string shows a value that is a [str] or [None]. *)
Definition fmt (v : option str) : str :=
  match v with Some s => s | None => py "None" end.

(** [m.group(i + 1)]. *)
Definition group (gs : list str) (i : nat) : str := default [] (gs !! i).

(** [(?P<year>\d{4})(?P<month>\d{2})(?P<day>\d{2})] *)
Definition REGEX_FILENAME_DATE : list piece :=
  [Group (times 4 Digit); Group (times 2 Digit); Group (times 2 Digit)].

(** [at (\d{2})\.(\d{2})\.(\d{2})] *)
Definition REGEX_FILENAME_TIME : list piece :=
  [Plain (lits "at "); Group (times 2 Digit); Plain (lits ".");
   Group (times 2 Digit); Plain (lits "."); Group (times 2 Digit)].

Definition DateTimeOriginal : N := 36867.
Definition DateTimeDigitized : N := 36868.

Section Program.

Variable Nd_other : N -> bool.

(** [str(e)] for the exceptions of the libraries; an [AssertionError]
    shows its message. *)
Variable lib_text : exn -> str.

Definition exn_text (e : exn) : str :=
  match e with
  | AssertionError msg => msg
  | _ => lib_text e
  end.

Definition export_exif_data (file : File) : M (option ifd) :=
  let* (_, exif_data) := read_image (file_path file) in
  match exif_data with
  | NoBytes => ret None
  | _ => let* d := piexif_load_Exif exif_data in ret (Some d)
  end.

(** The loop of [check_exif] over [data.items()]. *)
Fixpoint scan_tags (data : ifd) : M bool :=
  match data with
  | [] => ret false
  | (tag_id, value) :: rest =>
      match value with
      | BytesV b =>
          match decode b with
          | Some decoded_value =>
              match search Nd_other REGEX_FILENAME_DATE decoded_value with
              | Some _ => emit (LoggerInfo FoundExif) >> ret true
              | None => scan_tags rest
              end
          | None => scan_tags rest
          end
      | OtherV => scan_tags rest
      end
  end.

Definition check_exif (file : File) : M bool :=
  let* data := export_exif_data file in
  match data with
  | None | Some [] => ret false
  | Some d => scan_tags d
  end.

Definition parse_filename_to_date (file : File) : M File :=
  let date_match := search Nd_other REGEX_FILENAME_DATE (filename file) in
  let time_match := search Nd_other REGEX_FILENAME_TIME (filename file) in
  match date_match with
  | Some date_dict =>
      let date_str :=
        group date_dict 0 ++ py ":" ++ group date_dict 1 ++ py ":"
        ++ group date_dict 2 in
      let time_str :=
        match time_match with
        | Some gs => group gs 0 ++ py ":" ++ group gs 1 ++ py ":" ++ group gs 2
        | None => py "00:00:00"
        end in
      let file := set_parsed_date (Some (date_str ++ py " " ++ time_str)) file in
      emit (LoggerInfo (ParsedDate (parsed_date file))) >> ret file
  | None => ret file
  end.

Definition new_image_exif_data (file : File) : M (File * segment) :=
  let date_time := fmt (parsed_date file) ++ py " 00:00:00" in
  match encode date_time with
  | None => raise UnicodeEncodeError
  | Some b =>
      let exif_dict :=
        [(DateTimeOriginal, BytesV b); (DateTimeDigitized, BytesV b)] in
      emit (LoggerInfo (NewExif exif_dict)) >>
      let exif_bytes := piexif_dump exif_dict in
      ret (set_exif_bytes exif_bytes file, exif_bytes)
  end.

Definition assertion_message : str := py "New file doesn't have exif data.".

Definition save_exif_data (file : File) (img : image) (output_path : str)
    (overwrite keep_original_path : bool) : M (option File) :=
  makedirs output_path >>
  let new_file_path := Os_path.join output_path (filename file) in
  let* there := exists_ new_file_path in
  if there && negb overwrite then ret None
  else
    (if there then remove new_file_path else ret tt) >>
    let '(base, ext) := Os_path.splitext (filename file) in
    (* counter = 1 *)
    let new_filename := base ++ py "_" ++ py "1" ++ ext in
    let new_file_path := Os_path.join output_path new_filename in
    let* file :=
      (if keep_original_path
       then save img (file_path file) (exif_bytes file) >> ret file
       else save img new_file_path (exif_bytes file) >>
            ret (set_new_file_path new_file_path file)) in
    close img >>
    emit (LoggerInfo (Saved (Main.new_file_path file))) >>
    let* ok := check_exif file in
    if ok then ret (Some file) else raise (AssertionError assertion_message).

Definition process_file (file : File) (args : Args) : M unit :=
  let* im := Image_open (file_path file) in
  let* has := check_exif file in
  if has then
    emit (SpinnerInfo (py "Skipping file: '" ++ filename file ++ py "'"))
  else
    let* file := parse_filename_to_date file in
    match parsed_date file with
    | None => ret tt
    | Some _ =>
        let* (file, exif) := new_image_exif_data file in
        save_exif_data file im (output_path args) (overwrite args)
                       (keep_original_path args) >>
        emit (LoggerInfo (Repr (filename file))) >>
        emit (SpinnerSucceed
                (py "Processing complete on file: '" ++ filename file ++ py "'"))
    end.

(** The loop of [main] over [files_list]. *)
Fixpoint for_files (files_list : list File) (args : Args) : M unit :=
  match files_list with
  | [] => ret tt
  | file :: rest =>
      emit (SpinnerText (py "Processing: " ++ file_path file)) >>
      try_except (process_file file args)
                 (fun e => emit (SpinnerInfo (py "An error occurred: "
                                              ++ exn_text e))) >>
      for_files rest args
  end.

(** [main], after [parse_arguments] gave [args] and
    [get_files_from_path] gave [files_list]. *)
Definition main (args : Args) (files_list : list File) : M unit :=
  emit (SpinnerStart (py "Retrieving list of media files..." ++ [10])) >>
  for_files files_list args >>
  emit (SpinnerSucceed (py "Run complete.")).

End Program.

End Main.

(** ** Reference definitions: the parser and the date format in the words
    of the specification *)

Module Reference.

Section Reference.

Variable Nd_other : N -> bool.

(** The [n] characters of [s] from index [i] on (fewer at the end). *)
Definition sub (s : str) (i n : nat) : str := take n (drop i s).

(** [n] digits stand at index [i]. *)
Definition digits (s : str) (i n : nat) : bool :=
  (length (sub s i n) =? n)%nat && forallb (is_digit Nd_other) (sub s i n).

(** The literal [l] stands at index [i]. *)
Definition literal (s : str) (i : nat) (l : string) : bool :=
  starts_with (py l) (drop i s).

(** An 8-digit run [YYYYMMDD] starts at index [i]. *)
Definition date_at (s : str) (i : nat) : bool := digits s i 8.

(** [at HH.MM.SS] starts at index [i]: the word, a space, two digits, a
    period, two digits, a period, two digits. *)
Definition time_at (s : str) (i : nat) : bool :=
  literal s i "at " && digits s (i + 3) 2 && literal s (i + 5) "."
  && digits s (i + 6) 2 && literal s (i + 8) "." && digits s (i + 9) 2.

(** The first index of [s] at which [P] holds. *)
Definition first (P : nat -> bool) (s : str) : option nat :=
  find P (seq 0 (length s)).

(** The time field: [HH:MM:SS] of the first [at HH.MM.SS], midnight when
    there is none. *)
Definition reference_time (s : str) : str :=
  match first (time_at s) s with
  | Some j => sub s (j + 3) 2 ++ py ":" ++ sub s (j + 6) 2 ++ py ":"
              ++ sub s (j + 9) 2
  | None => py "00:00:00"
  end.

(** The parser: the first 8-digit run split as [YYYY], [MM], [DD], then
    the time field; empty without such a run. *)
Definition reference_parser (s : str) : option str :=
  match first (date_at s) s with
  | Some i => Some (sub s i 4 ++ py ":" ++ sub s (i + 4) 2 ++ py ":"
                    ++ sub s (i + 6) 2 ++ py " " ++ reference_time s)
  | None => None
  end.

(** The EXIF date and time format [YYYY:MM:DD HH:MM:SS]: nineteen
    characters, digits but for the separators. *)
Definition exif_datetime (s : str) : bool :=
  (length s =? 19)%nat
  && digits s 0 4 && literal s 4 ":" && digits s 5 2 && literal s 7 ":"
  && digits s 8 2 && literal s 10 " " && digits s 11 2 && literal s 13 ":"
  && digits s 14 2 && literal s 16 ":" && digits s 17 2.

(** The number of digits [s] starts with. *)
Fixpoint digit_prefix (s : str) : nat :=
  match s with
  | c :: s' => if is_digit Nd_other c then S (digit_prefix s') else 0%nat
  | [] => 0%nat
  end.

(** The length of the longest run of digits in [s]. *)
Fixpoint max_run (s : str) : nat :=
  match s with
  | [] => 0%nat
  | _ :: s' => digit_prefix s `max` max_run s'
  end.

End Reference.

End Reference.

(** ** The stages of [save_exif_data], named *)

Module Stages.
Import Env Main.

Section Stages.

Variable Nd_other : N -> bool.

(** The naive destination, [outputDirectory/filename]. *)
Definition naive (file : File) (output_path : str) : str :=
  Os_path.join output_path (filename file).

(** The disambiguated path: [_1] before the extension. *)
Definition disambiguated (file : File) (output_path : str) : str :=
  let '(base, ext) := Os_path.splitext (filename file) in
  Os_path.join output_path (base ++ py "_" ++ py "1" ++ ext).

(** The collision policy: the directory, the test of the naive
    destination, the removal; [true] when the write is to go on. *)
Definition resolve (file : File) (output_path : str) (overwrite : bool)
    : M bool :=
  makedirs output_path >>
  let* there := exists_ (naive file output_path) in
  if there && negb overwrite then ret false
  else (if there then remove (naive file output_path) else ret tt) >> ret true.

(** Where the image is saved. *)
Definition target (file : File) (output_path : str)
    (keep_original_path : bool) : str :=
  if keep_original_path then file_path file
  else disambiguated file output_path.

(** The [File] after the write. *)
Definition written (file : File) (output_path : str)
    (keep_original_path : bool) : File :=
  if keep_original_path then file
  else set_new_file_path (disambiguated file output_path) file.

(** What follows the write: closing, the record, the assertion. *)
Definition verify (file : File) (img : image) : M (option File) :=
  close img >>
  emit (LoggerInfo (Saved (new_file_path file))) >>
  let* ok := check_exif Nd_other file in
  if ok then ret (Some file) else raise (AssertionError assertion_message).

(** [str(e)] of the library's exceptions. *)
Variable lib_text : exn -> str.

(** The world after one turn of the loop of [main]: the status text, the
    processing of the file and, when that raises, the record of the
    error. *)
Definition after_file (args : Args) (w : world) (file : File) : world :=
  let w0 := logged (SpinnerText (py "Processing: " ++ file_path file)) w in
  match process_file Nd_other file args w0 with
  | (Val _, w1) => w1
  | (Exc e, w1) =>
      logged (SpinnerInfo (py "An error occurred: " ++ exn_text lib_text e)) w1
  end.

End Stages.

End Stages.

(** ** The claims that do not hold as they are worded *)

Module Stated.
Import Env Main Stages.

Section Stated.

Variable Nd_other : N -> bool.
Variable lib_text : exn -> str.

(** The collision policy without a condition on [keep_original_path]:
    with a file at the naive destination, [overwrite] false leaves the
    files as they are, and [overwrite] true removes that file and writes
    the new one at the [_1] path. *)
Definition collision_policy_as_stated (file : File) (img : image)
    (output_path : str) (overwrite keep : bool) (w : world) : Prop :=
  is_Some (files w !! naive file output_path) ->
  let r := save_exif_data Nd_other file img output_path overwrite keep w in
  if overwrite
  then files r.2 =
       <[disambiguated file output_path :=
           Picture (pixels_of img) (exif_bytes file)]>
         (delete (naive file output_path) (files w))
  else files r.2 = files w.

(** A text names a file when it contains the stem of its name, which the
    name and every path of the file contain. *)
Definition identifies (text : str) (file : File) : bool :=
  contains (Os_path.splitext (filename file)).1 text.

(** The failure of a file is logged with the identity of the file: when
    [process_file] raises, the record the loop writes for it names the
    file. *)
Definition failure_logged_with_identity (file : File) (args : Args)
    (w : world) : Prop :=
  forall e w1,
    process_file Nd_other file args
                 (logged (SpinnerText (py "Processing: " ++ file_path file)) w)
    = (Exc e, w1) ->
    exists text,
      last (out (for_files Nd_other lib_text [file] args w).2)
      = Some (SpinnerInfo text)
      /\ identifies text file = true.

End Stated.

End Stated.

(** ** Inputs for the examples *)

Module Examples.
Import Env Main.

(** A table without digits outside ASCII. *)
Definition Nd_ascii : N -> bool := fun _ => false.

Definition permitted : str -> bool := fun _ => false.

Definition IMG : File :=
  discovered (py "IMG-20230615-WA0001.jpg") (py "in/IMG-20230615-WA0001.jpg")
             (py "jpg").

Definition photo : File :=
  discovered (py "photo.jpg") (py "in/photo.jpg") (py "jpg").

Definition dated : File :=
  discovered (py "dated-20230615.jpg") (py "in/dated-20230615.jpg") (py "jpg").

(** The bytes of an ASCII text. *)
Definition ascii_bytes (s : string) : bytes := n2b <$> py s.

(** The pictures of the input directory: two without EXIF, one whose
    EXIF holds a user comment ([37510]) with an 8-digit run. *)
Definition sources : gmap str content :=
  {[ py "in/IMG-20230615-WA0001.jpg" := Picture 7 NoBytes;
     py "in/photo.jpg" := Picture 8 NoBytes;
     py "in/dated-20230615.jpg" :=
       Picture 5 (Block [(37510, BytesV (ascii_bytes "taken 20230615"))]) ]}.

(** Before the first run: no output directory. *)
Definition fresh_world : world :=
  World sources {[ py "in" ]} permitted ∅ 0 [].

(** With a file at the naive destination of [IMG]. *)
Definition taken_world : world :=
  World (<[ py "out/IMG-20230615-WA0001.jpg" := Picture 9 NoBytes ]> sources)
        {[ py "in"; py "out" ]} permitted ∅ 0 [].

(** The same, where the process may not write the [_1] path of [IMG]. *)
Definition locked_world : world :=
  World sources {[ py "in" ]}
        (fun p => bool_decide (p = py "out/IMG-20230615-WA0001_1.jpg"))
        ∅ 0 [].

Definition args (overwrite keep_original_path : bool) : Args :=
  mkArgs (py "in") (py "out") false overwrite keep_original_path.

(** [IMG] after the parser and the synthesizer. *)
Definition stamp : segment :=
  Block [(DateTimeOriginal, BytesV (ascii_bytes "2023:06:15 00:00:00 00:00:00"));
         (DateTimeDigitized, BytesV (ascii_bytes "2023:06:15 00:00:00 00:00:00"))].

Definition IMG_stamped : File :=
  set_exif_bytes stamp (set_parsed_date (Some (py "2023:06:15 00:00:00")) IMG).

(** The image object of [IMG] and the world once it is open. *)
Definition opened : image := Image 0 7 NoBytes.

Definition taken_world_open : world :=
  World (files taken_world) (dirs taken_world) permitted {[ 0%nat ]} 1 [].

(** Before the first run, with the image of [IMG] open. *)
Definition fresh_world_open : world :=
  World (files fresh_world) (dirs fresh_world) permitted {[ 0%nat ]} 1 [].

End Examples.

(** ** Discovery: [get_files_from_path], and [main] with it *)

Module Discovery.
Import Env Main.

(** The two cases of [os.path.join(a, b)]: [b] alone when it starts at the
    root, else [a], a separator when [a] needs one, and [b]. *)
Definition rooted (b : str) : bool :=
  match b with c :: _ => c =? Os_path.sep | [] => false end.

Definition with_sep (a : str) : str :=
  match last a with
  | Some z => if z =? Os_path.sep then a else a ++ [Os_path.sep]
  | None => []
  end.

Definition FILES_EXT : list str := [py "jpeg"; py "jpg"; py "mp4"].

(** [os.path.basename(p)]: what follows the last separator. *)
Definition basename (p : str) : str :=
  drop (Z.to_nat (Os_path.rfind Os_path.sep p + 1)) p.

(** [c.lower()] for an ASCII character. *)
Definition ascii_lower (c : N) : N :=
  if (65 <=? c) && (c <=? 90) then c + 32 else c.

(** [os.path.isfile(p)]. *)
Definition isfile (p : str) : M bool :=
  fun w => (Val (bool_decide (is_Some (files w !! p))), w).

Section Discovery.

(** [s.lower()] on a string with a character outside ASCII follows the
    Unicode tables of the interpreter; it is the parameter [lower_other]. *)
Variable lower_other : str -> str.

Definition lower (s : str) : str :=
  if forallb (fun c => c <? 128) s then ascii_lower <$> s else lower_other s.

(** The directory listings are the operating system's: [os.walk(path)]
    as the pairs of a directory and the names of its files ([walk]), and
    [os.listdir(path)] as the names of the entries or the exception
    raised ([listdir]). *)
Variable walk : str -> list (str * list str).
Variable listdir : str -> res (list str).

(** The list [file_paths] of [get_files_from_path]. *)
Definition file_paths (path : str) (recursive : bool) : M (list str) :=
  if recursive then
    ret (flat_map (fun '(root, files) => Os_path.join root <$> files)
                  (walk path))
  else
    match listdir path with
    | Exc e => raise e
    | Val names =>
        fun w => (Val (filter (fun p => is_Some (files w !! p))
                              (Os_path.join path <$> names)), w)
    end.

(** The extension as the loop computes it:
    [os.path.splitext(filename)[1][1:].lower()]. *)
Definition extension_of (filename : str) : str :=
  lower (drop 1 (Os_path.splitext filename).2).

(** The loop over [file_paths], with the list [files] built so far. *)
Fixpoint collect (file_paths : list str) (output_path : str)
    (files : list File) : list File :=
  match file_paths with
  | [] => files
  | file_path :: rest =>
      let filename := basename file_path in
      let extension := extension_of filename in
      if bool_decide (extension ∈ FILES_EXT) then
        let new_file_path :=
          match output_path with
          | [] => []
          | _ => Os_path.join output_path filename
          end in
        collect rest output_path
          (files ++ [mkFile filename file_path new_file_path extension
                            (Some []) NoBytes])
      else collect rest output_path files
  end.

(** The test of the loop and the [File] it appends, for one path. *)
Definition accepted (file_path : str) : bool :=
  bool_decide (extension_of (basename file_path) ∈ FILES_EXT).

Definition found (output_path file_path : str) : File :=
  mkFile (basename file_path) file_path
         (match output_path with
          | [] => []
          | _ => Os_path.join output_path (basename file_path)
          end)
         (extension_of (basename file_path)) (Some []) NoBytes.

Definition get_files_from_path (path : str) (recursive : bool)
    (output_path : str) : M (list File) :=
  let* file_paths := file_paths path recursive in
  ret (collect file_paths output_path []).

Variable Nd_other : N -> bool.
Variable lib_text : exn -> str.

(** [main], after [parse_arguments] gave [args]. *)
Definition main (args : Args) : M unit :=
  emit (SpinnerStart (py "Retrieving list of media files..." ++ [10])) >>
  let* files_list := get_files_from_path (input_path args) (recursive args) [] in
  for_files Nd_other lib_text files_list args >>
  emit (SpinnerSucceed (py "Run complete.")).

End Discovery.

End Discovery.

(** ** What the Inspector looks for *)

Module Dated.
Import Env Main Reference.

Section Dated.

Variable Nd_other : N -> bool.

(** A tag value that is [bytes], decodes, and has eight digits in a row. *)
Definition dated_value (entry : N * tag_value) : bool :=
  match entry.2 with
  | BytesV b =>
      match decode b with
      | Some s => (8 <=? max_run Nd_other s)%nat
      | None => false
      end
  | OtherV => false
  end.

(** Six groups of characters with the separators of the format
    [YYYY:MM:DD HH:MM:SS]. *)
Definition laid_out (y m d h mi sec : str) : str :=
  y ++ py ":" ++ m ++ py ":" ++ d ++ py " " ++ h ++ py ":" ++ mi ++ py ":"
  ++ sec.

(** [n] characters, all digits. *)
Definition digit_group (n : nat) (l : str) : Prop :=
  length l = n /\ forallb (is_digit Nd_other) l = true.

(** The answer and the world after [check_exif] on a file that holds
    [c]. *)
Definition inspected (path : str) (c : option content) (w : world)
    : res bool * world :=
  match c with
  | Some (Picture _ NoBytes) => (Val false, w)
  | Some (Picture _ (Block d)) =>
      if existsb dated_value d
      then (Val true, logged (LoggerInfo FoundExif) w)
      else (Val false, w)
  | Some (Picture _ Unreadable) => (Exc InvalidImageDataError, w)
  | Some Opaque => (Exc (UnidentifiedImageError path), w)
  | None =>
      if bool_decide (path ∈ dirs w) then (Exc (IsADirectoryError path), w)
      else (Exc (FileNotFoundError path), w)
  end.

End Dated.

End Dated.

(** ** More inputs for examples *)

Module Examples2.
Import Env Main Examples.

(** After a first run: the copy of [IMG] stands at its [_1] path. *)
Definition second_run_world : world :=
  World (<[ py "out/IMG-20230615-WA0001_1.jpg" := Picture 9 NoBytes ]> sources)
        {[ py "in"; py "out" ]} permitted ∅ 0 [].

Definition second_run_world_open : world :=
  World (files second_run_world) (dirs second_run_world) permitted
        {[ 0%nat ]} 1 [].

(** A video, which PIL does not identify. *)
Definition VID : File :=
  discovered (py "VID-20240101-WA0002.mp4") (py "in/VID-20240101-WA0002.mp4")
             (py "mp4").

Definition video_world : world :=
  World (<[ py "in/VID-20240101-WA0002.mp4" := Opaque ]> sources)
        {[ py "in" ]} permitted ∅ 0 [].

End Examples2.

(** * Properties *)

(** ** The UTF-8 codec *)

Module TextFacts.

Lemma to_N_n2b n : n < 256 -> Byte.to_N (n2b n) = n.
Proof.
  intros H. unfold n2b.
  destruct (Byte.of_N n) as [b|] eqn:E.
  - by apply Byte.to_of_N.
  - apply Byte.of_N_None_iff in E. lia.
Qed.

Ltac arith := zify; Z.to_euclidean_division_equations; lia.

Ltac settle_tests :=
  repeat match goal with
  | |- context [?a <? ?b] =>
      destruct (N.ltb_spec a b); try (exfalso; arith)
  | |- context [?a <=? ?b] =>
      destruct (N.leb_spec a b); try (exfalso; arith)
  end.

(** Decoding what one character encodes to gives the character back. *)
Lemma decode_encode_char c b r :
  encode_char c = Some b -> decode (b ++ r) = cons c <$> decode r.
Proof.
  unfold encode_char, surrogate.
  destruct (N.ltb_spec c 0x80); [|destruct (N.ltb_spec c 0x800);
    [|destruct (N.ltb_spec c 0x10000); [destruct (N.leb_spec 0xD800 c);
      [destruct (N.leb_spec c 0xDFFF)|] |destruct (N.ltb_spec c 0x110000)]]];
    cbn [andb]; intros [= <-]; cbn [app decode]; unfold continuation, surrogate.
  all: rewrite ?to_N_n2b by arith.
  all: settle_tests; cbn [andb negb].
  all: f_equal; f_equal; arith.
Qed.

Lemma decode_encode s b : encode s = Some b -> decode b = Some s.
Proof.
  revert b. induction s as [|c s IH]; intros b; cbn [encode].
  - by intros [= <-].
  - destruct (encode_char c) as [bc|] eqn:Ec; [|done].
    destruct (encode s) as [bs|]; [|done].
    intros [= <-]. rewrite (decode_encode_char _ _ _ Ec), (IH bs); done.
Qed.

Lemma encode_char_scalar c : scalar c = true -> is_Some (encode_char c).
Proof.
  unfold scalar, encode_char. intros [Hlt Hs]%andb_true_iff.
  apply negb_true_iff in Hs. rewrite Hs.
  apply N.ltb_lt in Hlt.
  repeat case_match; eauto.
  match goal with H : (c <? 0x110000) = false |- _ => apply N.ltb_ge in H end.
  lia.
Qed.

Lemma encode_scalar s : Forall (fun c => scalar c = true) s -> is_Some (encode s).
Proof.
  induction 1 as [|c s Hc _ [bs IH]]; cbn [encode]; [eauto|].
  destruct (encode_char_scalar c Hc) as [bc ->]. rewrite IH. eauto.
Qed.

Lemma encode_app s t :
  encode (s ++ t) = match encode s, encode t with
                    | Some a, Some b => Some (a ++ b)
                    | _, _ => None
                    end.
Proof.
  induction s as [|c s IH]; cbn [encode app].
  - by destruct (encode t).
  - rewrite IH. destruct (encode_char c), (encode s), (encode t);
      rewrite ?app_assoc; done.
Qed.

Example encode_three_scripts :
  encode [0x32; 0x661; 0x20AC; 0x1F600] =
  Some [x32; xd9; xa1; xe2; x82; xac; xf0; x9f; x98; x80].
Proof. reflexivity. Qed.

Example encode_lone_surrogate : encode [0xDC80] = None.
Proof. reflexivity. Qed.

Example decode_rejects :
  decode [xc0; x80] = None /\ decode [xed; xa0; x80] = None
  /\ decode [xf4; x90; x80; x80] = None /\ decode [xff] = None
  /\ decode [xe2; x82] = None.
Proof. repeat split. Qed.

End TextFacts.

(** ** Paths *)

Module PathFacts.
Import Os_path.

Example join_examples :
  join (py "out") (py "a.jpg") = py "out/a.jpg"
  /\ join (py "out/") (py "a.jpg") = py "out/a.jpg"
  /\ join (py "") (py "a.jpg") = py "a.jpg"
  /\ join (py "out") (py "/a.jpg") = py "/a.jpg".
Proof. repeat split. Qed.

Example splitext_examples :
  splitext (py "IMG-20230615-WA0001.jpg") = (py "IMG-20230615-WA0001", py ".jpg")
  /\ splitext (py "x.tar.gz") = (py "x.tar", py ".gz")
  /\ splitext (py ".bashrc") = (py ".bashrc", py "")
  /\ splitext (py "..x.y") = (py "..x", py ".y")
  /\ splitext (py "a.b/c") = (py "a.b/c", py "")
  /\ splitext (py "photo") = (py "photo", py "").
Proof. repeat split. Qed.

End PathFacts.

(** ** The matcher and the reference search *)

Module ReFacts.
Import Main Reference.

Section ReFacts.

Variable Nd_other : N -> bool.

Arguments is_digit : simpl never.

Lemma find_fmap {A B} (f : A -> B) (P : B -> bool) (l : list A) :
  find P (f <$> l) = f <$> find (fun x => P (f x)) l.
Proof.
  induction l as [|x l IH]; cbn; [done|].
  destruct (P (f x)); [done|]. exact IH.
Qed.

Lemma find_ext_in {A} (P Q : A -> bool) (l : list A) :
  (forall x, x ∈ l -> P x = Q x) -> find P l = find Q l.
Proof.
  induction l as [|x l IH]; intros H; cbn; [done|].
  rewrite (H x) by left. rewrite IH; [done|].
  intros y Hy. apply H. by right.
Qed.

Lemma find_app {A} (P : A -> bool) (l l' : list A) :
  find P (l ++ l') = match find P l with Some x => Some x | None => find P l' end.
Proof.
  induction l as [|y l IH]; cbn; [done|]. by destruct (P y).
Qed.

Lemma find_snoc_false {A} (P : A -> bool) (l : list A) (x : A) :
  P x = false -> find P (l ++ [x]) = find P l.
Proof.
  intros Hx. induction l as [|y l IH]; cbn; [by rewrite Hx|].
  destruct (P y); [done|]. exact IH.
Qed.

(** [search] returns the match at the least index that has one. *)
Lemma search_find (p : list piece) (s : str) :
  search Nd_other p s =
  match find (fun i => bool_decide (is_Some (match_here Nd_other p (drop i s))))
             (seq 0 (S (length s))) with
  | Some i => match_here Nd_other p (drop i s)
  | None => None
  end.
Proof.
  induction s as [|c s IH].
  - cbn [search length seq find drop].
    destruct (match_here Nd_other p []) eqn:E.
    + rewrite bool_decide_true by eauto. done.
    + rewrite bool_decide_false by (intros [? ?]; done). done.
  - cbn [search length].
    change (seq 0 (S (S (length s)))) with (0%nat :: seq 1 (S (length s))).
    cbn [find]. rewrite drop_0.
    destruct (match_here Nd_other p (c :: s)) as [gs|] eqn:E.
    + rewrite bool_decide_true by eauto. by rewrite drop_0.
    + rewrite bool_decide_false by (intros [? ?]; done).
      rewrite IH, <- seq_shift.
      change (map S ?l) with (S <$> l).
      rewrite find_fmap. cbn [drop].
      by destruct (find _ _).
Qed.

Lemma sub_drop (s : str) (i k n : nat) : sub s (i + k) n = sub (drop i s) k n.
Proof. unfold sub. by rewrite drop_drop. Qed.

Lemma digits_drop (s : str) (i k n : nat) :
  digits Nd_other s (i + k) n = digits Nd_other (drop i s) k n.
Proof. unfold digits. by rewrite sub_drop. Qed.

Lemma literal_drop (s : str) (i k : nat) l :
  literal s (i + k) l = literal (drop i s) k l.
Proof. unfold literal. by rewrite drop_drop. Qed.

Lemma digits_0 (s : str) (i : nat) : digits Nd_other s i 0 = true.
Proof. unfold digits, sub. by rewrite take_0. Qed.

Lemma digits_S (c : N) (s : str) (n : nat) :
  digits Nd_other (c :: s) 0 (S n) = is_digit Nd_other c && digits Nd_other s 0 n.
Proof.
  unfold digits, sub. rewrite !drop_0. cbn [take length forallb Nat.eqb].
  destruct (is_digit Nd_other c); cbn [andb]; [done|].
  by rewrite andb_false_r.
Qed.

Lemma digits_nil (i n : nat) : digits Nd_other [] i (S n) = false.
Proof. unfold digits, sub. by rewrite drop_nil, take_nil. Qed.

(** A run of [\d{n}] at the start of [s]. *)
Lemma match_atoms_digits (n : nat) (s : str) :
  match_atoms Nd_other (times n Digit) s =
  if digits Nd_other s 0 n then Some (take n s, drop n s) else None.
Proof.
  revert s. induction n as [|n IH]; intros s.
  - by rewrite digits_0.
  - destruct s as [|c s]; [by rewrite digits_nil|].
    rewrite digits_S. cbn [times replicate match_atoms atom_matches].
    destruct (is_digit Nd_other c); cbn [andb]; [|done].
    change (replicate n Digit) with (times n Digit). rewrite IH.
    by destruct (digits Nd_other s 0 n).
Qed.

(** A run of literal characters at the start of [s]. *)
Lemma match_atoms_lits (l s : str) :
  match_atoms Nd_other (Lit <$> l) s =
  if starts_with l s then Some (take (length l) s, drop (length l) s) else None.
Proof.
  revert s. induction l as [|a l IH]; intros s; [done|].
  destruct s as [|c s]; [done|].
  cbn [fmap list_fmap match_atoms atom_matches starts_with].
  destruct (c =? a); cbn [andb]; [|done].
  change (list_fmap _ _ Lit l) with (Lit <$> l). rewrite IH.
  by destruct (starts_with l s).
Qed.

Lemma digits_add (s : str) (i n m : nat) :
  digits Nd_other s i (n + m) = digits Nd_other s i n && digits Nd_other s (i + n) m.
Proof.
  unfold digits, sub. rewrite <- (drop_drop s n i), <- take_take_drop.
  rewrite forallb_app, length_app.
  generalize (drop i s). intros t.

  assert (Hn : (length (take n t) <= n)%nat) by (rewrite length_take; lia).
  assert (Hm : (length (take m (drop n t)) <= m)%nat) by (rewrite length_take; lia).
  destruct (Nat.eqb_spec (length (take n t)) n) as [E1|E1];
    destruct (Nat.eqb_spec (length (take m (drop n t))) m) as [E2|E2];
    destruct (Nat.eqb_spec (length (take n t) + length (take m (drop n t))) (n + m));
    try lia; cbn [andb]; try done.
Qed.

Lemma digits_at (s : str) (k n : nat) :
  digits Nd_other s k n = digits Nd_other (drop k s) 0 n.
Proof. unfold digits, sub. by rewrite drop_0. Qed.

Lemma literal_at (s : str) (k : nat) l : literal s k l = literal (drop k s) 0 l.
Proof. unfold literal. by rewrite drop_0. Qed.

Ltac step_digits :=
  rewrite match_atoms_digits;
  match goal with
  | |- context [digits Nd_other ?t 0 ?n] =>
      destruct (digits Nd_other t 0 n); cbn [andb mbind option_bind]; [|done]
  end.

Ltac step_lits :=
  unfold lits; rewrite match_atoms_lits;
  match goal with
  | |- context [starts_with ?l ?t] =>
      destruct (starts_with l t); cbn [andb mbind option_bind]; [|done]
  end;
  repeat match goal with
  | |- context [length (py ?l)] =>
      let n := eval cbv in (length (py l)) in change (length (py l)) with n
  end.

(** The date pattern at the start of [t]. *)
Lemma date_here (t : str) :
  match_here Nd_other REGEX_FILENAME_DATE t =
  if date_at Nd_other t 0 then Some [sub t 0 4; sub t 4 2; sub t 6 2] else None.
Proof.
  unfold date_at, REGEX_FILENAME_DATE. cbn [match_here].
  change 8%nat with (4 + (2 + 2))%nat.
  rewrite !digits_add. cbn [Nat.add].
  rewrite (digits_at t 4), (digits_at t 6). unfold sub.
  assert (E : forall a b, drop (a + b) t = drop b (drop a t))
    by (intros; by rewrite drop_drop).
  rewrite !(E 4 2 : drop 6 t = _)%nat, drop_0. clear E.
  do 3 step_digits. done.
Qed.

(** The time pattern at the start of [t]. *)
Lemma time_here (t : str) :
  match_here Nd_other REGEX_FILENAME_TIME t =
  if time_at Nd_other t 0 then Some [sub t 3 2; sub t 6 2; sub t 9 2] else None.
Proof.
  unfold time_at, REGEX_FILENAME_TIME. cbn [match_here Nat.add].
  rewrite (digits_at t 3), (digits_at t 6), (digits_at t 9).
  rewrite (literal_at t 5), (literal_at t 8).
  unfold sub, literal. rewrite drop_0.
  assert (E : forall a b, drop (a + b) t = drop b (drop a t))
    by (intros; by rewrite drop_drop).
  rewrite !(E 8 1 : drop 9 t = _)%nat, !(E 6 2 : drop 8 t = _)%nat.
  rewrite !(E 5 1 : drop 6 t = _)%nat, !(E 3 2 : drop 5 t = _)%nat.
  clear E. rewrite !drop_0.
  step_lits. step_digits. step_lits. step_digits. step_lits. step_digits.
  done.
Qed.

Lemma date_at_end (s : str) : date_at Nd_other s (length s) = false.
Proof. unfold date_at, digits, sub. by rewrite drop_all. Qed.

Lemma time_at_end (s : str) : time_at Nd_other s (length s) = false.
Proof. unfold time_at, literal. by rewrite drop_all. Qed.

(** [re.search] with the date pattern finds the first 8-digit run. *)
Lemma search_date (s : str) :
  search Nd_other REGEX_FILENAME_DATE s =
  match first (date_at Nd_other s) s with
  | Some i => Some [sub s i 4; sub s (i + 4) 2; sub s (i + 6) 2]
  | None => None
  end.
Proof.
  rewrite search_find. unfold first.
  rewrite (find_ext_in _ (date_at Nd_other s)).
  - rewrite seq_S, find_snoc_false by apply date_at_end.
    destruct (find _ _) as [i|] eqn:E; [|done].
    apply find_some in E as [_ E].
    rewrite date_here. unfold date_at in *.
    rewrite <- digits_at, E. by rewrite !sub_drop.
  - intros i _. rewrite date_here. unfold date_at.
    rewrite <- digits_at. by destruct (digits Nd_other s i 8).
Qed.

Lemma time_at_drop (s : str) (i : nat) :
  time_at Nd_other (drop i s) 0 = time_at Nd_other s i.
Proof.
  unfold time_at. rewrite <- !digits_drop, <- !literal_drop.
  by rewrite Nat.add_0_r.
Qed.

(** [re.search] with the time pattern finds the first [at HH.MM.SS]. *)
Lemma search_time (s : str) :
  search Nd_other REGEX_FILENAME_TIME s =
  match first (time_at Nd_other s) s with
  | Some j => Some [sub s (j + 3) 2; sub s (j + 6) 2; sub s (j + 9) 2]
  | None => None
  end.
Proof.
  rewrite search_find. unfold first.
  rewrite (find_ext_in _ (time_at Nd_other s)).
  - rewrite seq_S, find_snoc_false by apply time_at_end.
    destruct (find _ _) as [j|] eqn:E; [|done].
    apply find_some in E as [_ E].
    rewrite time_here, time_at_drop, E. by rewrite !sub_drop.
  - intros i _. rewrite time_here, time_at_drop.
    by destruct (time_at Nd_other s i).
Qed.

(** [first] is the least index: the property holds there and at no
    smaller index. *)
Lemma first_least (P : nat -> bool) (s : str) (i : nat) :
  first P s = Some i <->
  (i < length s)%nat /\ P i = true /\ forall j, (j < i)%nat -> P j = false.
Proof.
  unfold first. generalize (length s). intros n. split.
  - induction n as [|n IH]; [done|].
    rewrite seq_S, find_app. cbn [Nat.add find].
    destruct (find P (seq 0 n)) as [k|] eqn:E.
    + intros [= ->]. destruct (IH eq_refl) as (?&?&?). eauto with lia.
    + destruct (P n) eqn:En; [|done]. intros [= <-].
      repeat split; [lia|done|].
      intros j Hj. eapply find_none in E; [done|]. apply in_seq. lia.
  - intros (Hi & HP & Hlt). induction n as [|n IH]; [lia|].
    rewrite seq_S, find_app. cbn [Nat.add find].
    destruct (decide (i = n)) as [->|].
    + destruct (find P (seq 0 n)) as [k|] eqn:E; [|by rewrite HP].
      apply find_some in E as [Hk E]. apply in_seq in Hk.
      rewrite Hlt in E by lia. done.
    + rewrite IH by lia. done.
Qed.

End ReFacts.
End ReFacts.

(** ** The Filename Date Parser *)

Module Parser.
Import Env Main Reference ReFacts.

Section Parser.

Variable Nd_other : N -> bool.

(** What the parser computes, by the reference definition. *)
Lemma parse_filename_to_date_eq (file : File) (w : world) :
  parse_filename_to_date Nd_other file w =
  match reference_parser Nd_other (filename file) with
  | Some d => (Val (set_parsed_date (Some d) file),
               logged (LoggerInfo (ParsedDate (Some d))) w)
  | None => (Val file, w)
  end.
Proof.
  unfold parse_filename_to_date, reference_parser, reference_time.
  rewrite search_date, search_time.
  destruct (first (date_at Nd_other (filename file)) (filename file)) as [i|];
    [|done].
  destruct (first (time_at Nd_other (filename file)) (filename file)) as [j|];
    unfold bind, emit, ret, group;
    cbn [lookup list_lookup default id parsed_date set_parsed_date];
    by rewrite <- !app_assoc.
Qed.

(** C3.  The parser equals the reference definition: on a filename with an
    8-digit run it sets [parsed_date] to the first such run split as
    [YYYY:MM:DD], a space, and the time field ([HH:MM:SS] of the first
    [at HH.MM.SS], else [00:00:00]), and logs it; on a filename without
    such a run it returns the file as it was and does nothing. *)
Theorem parse_filename_to_date_reference (file : File) (w : world) :
  parse_filename_to_date Nd_other file w =
  match reference_parser Nd_other (filename file) with
  | Some d => (Val (set_parsed_date (Some d) file),
               logged (LoggerInfo (ParsedDate (Some d))) w)
  | None => (Val file, w)
  end.
Proof. apply parse_filename_to_date_eq. Qed.

End Parser.

(** The end-to-end example of the specification, a name with a time, and
    a date no calendar has. *)
Example parse_IMG (Nd_other : N -> bool) (w : world) :
  (parse_filename_to_date Nd_other Examples.IMG w).1 =
  Val (set_parsed_date (Some (py "2023:06:15 00:00:00")) Examples.IMG).
Proof. reflexivity. Qed.

Example parse_with_time (Nd_other : N -> bool) (w : world) :
  let file := discovered (py "VID-20240101-WA0002 at 14.30.00.mp4")
                         (py "in/VID-20240101-WA0002 at 14.30.00.mp4")
                         (py "mp4") in
  (parse_filename_to_date Nd_other file w).1 =
  Val (set_parsed_date (Some (py "2024:01:01 14:30:00")) file).
Proof. reflexivity. Qed.

Example parse_invalid_calendar (Nd_other : N -> bool) (w : world) :
  let file := discovered (py "IMG-20231345-WA0001.jpg")
                         (py "in/IMG-20231345-WA0001.jpg") (py "jpg") in
  (parse_filename_to_date Nd_other file w).1 =
  Val (set_parsed_date (Some (py "2023:13:45 00:00:00")) file).
Proof. reflexivity. Qed.

Example parse_dashed_date (Nd_other : N -> bool) (w : world) :
  let file := discovered (py "WhatsApp Image 2023-06-15 at 14.30.00.jpeg")
                         (py "in/WhatsApp Image 2023-06-15 at 14.30.00.jpeg")
                         (py "jpeg") in
  parse_filename_to_date Nd_other file w = (Val file, w).
Proof. reflexivity. Qed.

End Parser.

(** ** The monad and the environment *)

Module EnvFacts.
Import Env.

Lemma bind_val {A B} (m : M A) (k : A -> M B) w a w1 :
  m w = (Val a, w1) -> bind m k w = k a w1.
Proof. unfold bind. by intros ->. Qed.

Lemma bind_exc {A B} (m : M A) (k : A -> M B) w e w1 :
  m w = (Exc e, w1) -> bind m k w = (Exc e, w1).
Proof. unfold bind. by intros ->. Qed.

(** [os.makedirs] leaves everything but the set of directories, which
    gains the path. *)
Lemma makedirs_val p w w1 :
  makedirs p w = (Val tt, w1) ->
  files w1 = files w /\ denied w1 = denied w /\ live w1 = live w
  /\ fresh w1 = fresh w /\ out w1 = out w
  /\ dirs w1 = {[p]} ∪ dirs w.
Proof.
  unfold makedirs. destruct p as [|c p]; [done|].
  case_bool_decide as Hd; [|repeat case_match]; intros ?; simplify_eq;
    cbn; repeat split; try done.
  apply leibniz_equiv. symmetry. by apply subseteq_union_1, singleton_subseteq_l.
Qed.

Lemma makedirs_exc p w e w1 : makedirs p w = (Exc e, w1) -> w1 = w.
Proof.
  unfold makedirs. destruct p as [|c p]; [by intros ?; simplify_eq|].
  by repeat case_match; intros ?; simplify_eq.
Qed.

Lemma exists_file p w c :
  files w !! p = Some c -> exists_ p w = (Val true, w).
Proof.
  intros H. unfold exists_. rewrite bool_decide_true by (rewrite H; eauto). done.
Qed.

Lemma remove_file p w c :
  files w !! p = Some c -> denied w p = false ->
  remove p w = (Val tt, with_files (delete p (files w)) w).
Proof. intros H D. unfold remove. by rewrite H, D. Qed.

Lemma save_ok img p b w :
  p ∉ dirs w -> denied w p = false ->
  save img p b w = (Val tt, with_files (<[p := Picture (pixels_of img) b]> (files w)) w).
Proof.
  intros H D. unfold save. by rewrite bool_decide_false, D.
Qed.

Lemma same_store_refl w : same_store w w.
Proof. done. Qed.

Lemma same_store_logged e w : same_store w (logged e w).
Proof. done. Qed.

Lemma same_store_trans w1 w2 w3 :
  same_store w1 w2 -> same_store w2 w3 -> same_store w1 w3.
Proof. unfold same_store. intros (->&->&->) (->&->&->). done. Qed.

End EnvFacts.

(** ** What is written out only grows *)

Module Growth.
Import Env Main Stages EnvFacts.

Lemma grows_ret {A} (a : A) : grows (ret a).
Proof. intros w r w' [= _ <-]. exists []. by rewrite app_nil_r. Qed.

Lemma grows_raise {A} e : grows (@raise A e).
Proof. intros w r w' [= _ <-]. exists []. by rewrite app_nil_r. Qed.

Lemma grows_emit e : grows (emit e).
Proof. intros w r w' [= _ <-]. by eexists. Qed.

Lemma grows_bind {A B} (m : M A) (k : A -> M B) :
  grows m -> (forall a, grows (k a)) -> grows (bind m k).
Proof.
  intros Hm Hk w r w'. unfold bind.
  destruct (m w) as [[a|e] w1] eqn:E; destruct (Hm _ _ _ E) as [r1 E1].
  - intros [r2 E2]%Hk. exists (r1 ++ r2). by rewrite E2, E1, app_assoc.
  - intros [= _ <-]. eauto.
Qed.

Lemma grows_try_except {A} (m : M A) (h : exn -> M A) :
  grows m -> (forall e, grows (h e)) -> grows (try_except m h).
Proof.
  intros Hm Hh w r w'. unfold try_except.
  destruct (m w) as [[a|e] w1] eqn:E; destruct (Hm _ _ _ E) as [r1 E1].
  - intros [= _ <-]. eauto.
  - intros [r2 E2]%Hh. exists (r1 ++ r2). by rewrite E2, E1, app_assoc.
Qed.

(** A computation that leaves the output as it is. *)
Lemma grows_quiet {A} (m : M A) :
  (forall w r w', m w = (r, w') -> out w' = out w) -> grows m.
Proof. intros H w r w' E. exists []. rewrite app_nil_r. eauto. Qed.

Lemma grows_exists_ p : grows (exists_ p).
Proof. apply grows_quiet. by intros w r w' [= _ <-]. Qed.

Lemma grows_makedirs p : grows (makedirs p).
Proof.
  apply grows_quiet. intros w [[]|e] w' E.
  - by apply makedirs_val in E as (_&_&_&_&?&_).
  - by apply makedirs_exc in E as ->.
Qed.

Lemma grows_remove p : grows (remove p).
Proof.
  apply grows_quiet. intros w r w'. unfold remove.
  repeat case_match; by intros [= _ <-].
Qed.

Lemma grows_read_image p : grows (read_image p).
Proof.
  apply grows_quiet. intros w r w'. unfold read_image.
  repeat case_match; by intros [= _ <-].
Qed.

Lemma grows_Image_open p : grows (Image_open p).
Proof.
  apply grows_bind; [apply grows_read_image|]. intros [px ex].
  apply grows_quiet. by intros w r w' [= _ <-].
Qed.

Lemma grows_save img p b : grows (save img p b).
Proof.
  apply grows_quiet. intros w r w'. unfold save.
  repeat case_match; by intros [= _ <-].
Qed.

Lemma grows_close img : grows (close img).
Proof. apply grows_quiet. by intros w r w' [= _ <-]. Qed.

Lemma grows_piexif_load_Exif b : grows (piexif_load_Exif b).
Proof. destruct b; [apply grows_raise|apply grows_ret|apply grows_raise]. Qed.

Create HintDb grows.

#[local] Hint Resolve grows_ret grows_raise grows_emit grows_exists_
  grows_makedirs grows_remove grows_read_image grows_Image_open grows_save
  grows_close grows_piexif_load_Exif : grows.

Ltac grow :=
  repeat first
    [ solve [eauto with grows]
    | apply grows_bind; [|intros ?]
    | apply grows_try_except; [|intros ?]
    | match goal with
      | |- grows (match ?x with _ => _ end) => destruct x
      | |- grows (if ?x then _ else _) => destruct x
      | |- grows (let '(_, _) := ?x in _) => destruct x
      end ].

Section Growth.

Variable Nd_other : N -> bool.
Variable lib_text : exn -> str.

Lemma grows_scan_tags d : grows (scan_tags Nd_other d).
Proof. induction d as [|[t v] d IH]; cbn [scan_tags]; grow. Qed.

Lemma grows_check_exif file : grows (check_exif Nd_other file).
Proof.
  pose proof grows_scan_tags.
  unfold check_exif, export_exif_data. grow.
Qed.

Lemma grows_parse_filename_to_date file :
  grows (parse_filename_to_date Nd_other file).
Proof. unfold parse_filename_to_date. grow. Qed.

Lemma grows_new_image_exif_data file : grows (new_image_exif_data file).
Proof. unfold new_image_exif_data. grow. Qed.

Lemma grows_save_exif_data file img output_path overwrite keep :
  grows (save_exif_data Nd_other file img output_path overwrite keep).
Proof.
  pose proof grows_check_exif.
  unfold save_exif_data. grow.
Qed.

Lemma grows_process_file file args : grows (process_file Nd_other file args).
Proof.
  pose proof grows_check_exif. pose proof grows_parse_filename_to_date.
  pose proof grows_new_image_exif_data. pose proof grows_save_exif_data.
  unfold process_file. grow.
Qed.

Lemma grows_for_files files_list args :
  grows (for_files Nd_other lib_text files_list args).
Proof.
  pose proof grows_process_file.
  induction files_list as [|file rest IH]; cbn [for_files]; grow.
Qed.

(** The loop reaches every file of the list: the status text of each is
    in the output. *)
Lemma every_file_is_announced files_list args w file :
  file ∈ files_list ->
  SpinnerText (py "Processing: " ++ file_path file)
  ∈ out (for_files Nd_other lib_text files_list args w).2.
Proof.
  revert w. induction files_list as [|f rest IH]; intros w Hin.
  { by apply elem_of_nil in Hin. }
  cbn [for_files]. unfold bind at 1, emit.
  apply elem_of_cons in Hin as [->|Hin].
  - match goal with |- context [bind ?m ?k ?w0] =>
      destruct (bind m k w0) as [r w'] eqn:E end.
    assert (G : grows (try_except (process_file Nd_other f args)
                 (fun e => emit (SpinnerInfo (py "An error occurred: "
                                              ++ exn_text lib_text e)))
               >> for_files Nd_other lib_text rest args)).
    { pose proof grows_process_file. pose proof grows_for_files. grow. }
    apply G in E as [more E]. cbn [snd]. rewrite E. cbn [logged out].
    rewrite !elem_of_app, list_elem_of_singleton. eauto.
  - unfold bind, try_except, emit.
    destruct (process_file _ _ _ _) as [[[]|e] w1]; by apply IH.
Qed.

End Growth.
End Growth.

(** ** The Metadata Inspector *)

Module Inspector.
Import Env Main Reference Stages EnvFacts TextFacts ReFacts.

Section Inspector.

Variable Nd_other : N -> bool.

Lemma digit_prefix_le_length (s : str) : (digit_prefix Nd_other s <= length s)%nat.
Proof.
  induction s as [|c s IH]; cbn; [done|]. destruct (is_digit Nd_other c); lia.
Qed.

Lemma max_run_le_length (s : str) : (max_run Nd_other s <= length s)%nat.
Proof.
  induction s as [|c s IH]; [done|]. cbn [max_run length].
  pose proof (digit_prefix_le_length (c :: s)) as H. cbn [length] in H. lia.
Qed.

Lemma digit_prefix_app_sep (a b : str) (c : N) :
  is_digit Nd_other c = false ->
  digit_prefix Nd_other (a ++ c :: b) = digit_prefix Nd_other a.
Proof.
  intros Hc. induction a as [|x a IH]; cbn; [by rewrite Hc|].
  by rewrite IH.
Qed.

(** A character that is no digit separates the runs on its two sides. *)
Lemma max_run_app_sep (a b : str) (c : N) :
  is_digit Nd_other c = false ->
  max_run Nd_other (a ++ c :: b)
  = Nat.max (max_run Nd_other a) (max_run Nd_other b).
Proof.
  intros Hc. induction a as [|x a IH].
  - cbn. by rewrite Hc.
  - change ((x :: a) ++ c :: b) with (x :: (a ++ c :: b)).
    cbn [max_run]. rewrite IH.
    change (x :: (a ++ c :: b)) with ((x :: a) ++ c :: b).
    rewrite digit_prefix_app_sep by done. lia.
Qed.

Lemma digits_digit_prefix (s : str) (n : nat) :
  digits Nd_other s 0 n = true -> (n <= digit_prefix Nd_other s)%nat.
Proof.
  revert s. induction n as [|n IH]; intros s; [lia|].
  destruct s as [|c s]; [by rewrite digits_nil|].
  rewrite digits_S. cbn [digit_prefix].
  destruct (is_digit Nd_other c); [|done]. intros H%IH. lia.
Qed.

Lemma digit_prefix_drop (s : str) (i : nat) :
  (digit_prefix Nd_other (drop i s) <= max_run Nd_other s)%nat.
Proof.
  revert i. induction s as [|c s IH]; intros i.
  - by rewrite drop_nil.
  - destruct i as [|i].
    + rewrite drop_0. cbn [max_run]. lia.
    + cbn [drop max_run]. specialize (IH i). lia.
Qed.

(** The date pattern needs eight digits in a row. *)
Lemma search_date_max_run (s : str) (gs : list str) :
  search Nd_other REGEX_FILENAME_DATE s = Some gs -> (8 <= max_run Nd_other s)%nat.
Proof.
  rewrite search_date.
  destruct (first _ _) as [i|] eqn:E; [|done]. intros _.
  apply first_least in E as (_ & E & _).
  unfold date_at in E. rewrite digits_at in E.
  apply digits_digit_prefix in E.
  pose proof (digit_prefix_drop s i). lia.
Qed.

Lemma search_date_None (s : str) :
  (max_run Nd_other s < 8)%nat -> search Nd_other REGEX_FILENAME_DATE s = None.
Proof.
  intros H. destruct (search _ _ _) as [gs|] eqn:E; [|done].
  apply search_date_max_run in E. lia.
Qed.

(** The longest run of digits in what the parser returns has four. *)
Lemma reference_parser_max_run (s d : str) :
  reference_parser Nd_other s = Some d -> (max_run Nd_other d <= 4)%nat.
Proof.
  unfold reference_parser, reference_time.
  destruct (first (date_at _ _) _) as [i|]; [|done]. intros [= <-].
  assert (L : forall i n, (max_run Nd_other (sub s i n) <= n)%nat).
  { intros j n. etrans; [apply max_run_le_length|].
    unfold sub. rewrite length_take. lia. }
  change (py ":") with [58]. change (py " ") with [32].
  cbn [app].
  rewrite !max_run_app_sep by reflexivity.
  pose proof (L i 4%nat). pose proof (L (i + 4)%nat 2%nat).
  pose proof (L (i + 6)%nat 2%nat).
  destruct (first (time_at _ _) _) as [j|].
  - rewrite !max_run_app_sep by reflexivity.
    pose proof (L (j + 3)%nat 2%nat). pose proof (L (j + 6)%nat 2%nat).
    pose proof (L (j + 9)%nat 2%nat). lia.
  - assert (max_run Nd_other (py "00:00:00") = 2%nat) as -> by reflexivity. lia.
Qed.

(** The suffix the synthesizer appends adds no long run. *)
Lemma stamped_max_run (v : option str) :
  (max_run Nd_other (fmt v) < 8)%nat ->
  (max_run Nd_other (fmt v ++ py " 00:00:00") < 8)%nat.
Proof.
  intros H. change (py " 00:00:00") with (32 :: py "00:00:00").
  rewrite max_run_app_sep by reflexivity.
  assert (max_run Nd_other (py "00:00:00") = 2%nat) as -> by reflexivity. lia.
Qed.

(** The Inspector reads; it writes nothing but its record. *)
Lemma check_exif_store file w r w' :
  check_exif Nd_other file w = (r, w') -> same_store w w'.
Proof.
  unfold check_exif, export_exif_data, bind, read_image, piexif_load_Exif, ret, raise.
  assert (S : forall d w r w', scan_tags Nd_other d w = (r, w') -> same_store w w').
  { clear. intros d. induction d as [|[t v] d IH]; intros w r w'; cbn [scan_tags].
    - unfold ret. intros ?; simplify_eq. done.
    - repeat case_match; eauto. unfold bind, emit, ret.
      intros ?; simplify_eq. done. }
  repeat case_match; intros ?; simplify_eq; eauto using same_store_refl.
Qed.

(** The scan finds nothing when no value that decodes has eight digits in
    a row. *)
Lemma scan_tags_short_runs (d : ifd) (w : world) :
  (forall t b s, (t, BytesV b) ∈ d -> decode b = Some s ->
                 (max_run Nd_other s < 8)%nat) ->
  scan_tags Nd_other d w = (Val false, w).
Proof.
  induction d as [|[t v] d IH]; intros H; [done|]. cbn [scan_tags].
  assert (IH' : scan_tags Nd_other d w = (Val false, w)).
  { apply IH. intros t' b s Hin. apply (H t' b s). by right. }
  destruct v as [b|]; [|done].
  destruct (decode b) as [s|] eqn:Eb; [|done].
  rewrite search_date_None; [done|].
  apply (H t b s); [left|done].
Qed.

(** The scan skips what is no [bytes] and what does not decode, and stops
    at the first value with eight digits in a row. *)
Example scan_tags_skips (w : world) :
  scan_tags Nd_other
    [(37121, OtherV); (37500, BytesV [xff; xfe]);
     (36867, BytesV (Examples.ascii_bytes "2023:06:15 12:00:00"));
     (37510, BytesV (Examples.ascii_bytes "taken 20230615"))] w
  = (Val true, logged (LoggerInfo FoundExif) w).
Proof. reflexivity. Qed.

(** The Inspector finds no date in a block the synthesizer has just
    made, whatever the parser returned. *)
Lemma synthesized_block_has_no_date file w file' blk w' :
  (max_run Nd_other (fmt (parsed_date file)) < 8)%nat ->
  new_image_exif_data file w = (Val (file', blk), w') ->
  exists d, blk = Block d /\ exif_bytes file' = Block d
            /\ forall w0, scan_tags Nd_other d w0 = (Val false, w0).
Proof.
  intros Hrun. unfold new_image_exif_data.
  destruct (encode _) as [b|] eqn:Eb; [|done].
  unfold bind, emit, ret. intros [= <- <- _].
  eexists. split; [done|]. split; [done|].
  intros w0. apply scan_tags_short_runs. intros t b' s Hin Hs.
  assert (b' = b) as ->.
  { apply elem_of_cons in Hin as [[= _ ->]|Hin]; [done|].
    apply elem_of_cons in Hin as [[= _ ->]|Hin]; [done|].
    by apply elem_of_nil in Hin. }
  apply decode_encode in Eb. rewrite Eb in Hs. injection Hs as <-.
  by apply stamped_max_run.
Qed.

End Inspector.
End Inspector.

(** ** The Destination Resolver *)

Module Resolver.
Import Env Main Stages EnvFacts Growth Inspector.

Section Resolver.

Variable Nd_other : N -> bool.

(** [save_exif_data] is its stages in sequence. *)
Lemma save_exif_data_stages file img output_path overwrite keep w :
  save_exif_data Nd_other file img output_path overwrite keep w =
  (let* go := resolve file output_path overwrite in
   if go then
     save img (target file output_path keep) (exif_bytes file) >>
     verify Nd_other (written file output_path keep) img
   else ret None) w.
Proof.
  unfold save_exif_data, resolve, target, written, verify, disambiguated, naive, bind.
  destruct (makedirs output_path w) as [[[]|e] w1]; [|done].
  destruct (exists_ _ w1) as [[there|e] w2]; [|done].
  destruct there, overwrite; cbn [andb negb]; try done.
  - destruct (remove _ w2) as [[[]|e] w3]; [|done].
    destruct (Os_path.splitext (filename file)) as [base ext].
    destruct keep; unfold bind, ret;
      by destruct (save _ _ _ w3) as [[[]|?] ?].
  - cbn. destruct (Os_path.splitext (filename file)) as [base ext].
    destruct keep; unfold bind, ret;
      by destruct (save _ _ _ w2) as [[[]|?] ?].
  - cbn. destruct (Os_path.splitext (filename file)) as [base ext].
    destruct keep; unfold bind, ret;
      by destruct (save _ _ _ w2) as [[[]|?] ?].
Qed.

Lemma verify_store file img w r w' :
  verify Nd_other file img w = (r, w') -> same_store w w'.
Proof.
  unfold verify, bind, close, emit.
  destruct (check_exif _ _ _) as [[[]|e] w2] eqn:E; unfold ret, raise;
    intros ?; simplify_eq;
    apply check_exif_store in E; destruct E as (?&?&?); done.
Qed.

(** The files after [save_exif_data], when the policy lets the write go
    on and the save succeeds. *)
Lemma save_exif_data_written file img output_path overwrite keep w w1 w2 :
  resolve file output_path overwrite w = (Val true, w1) ->
  save img (target file output_path keep) (exif_bytes file) w1 = (Val tt, w2) ->
  files (save_exif_data Nd_other file img output_path overwrite keep w).2 =
  <[target file output_path keep := Picture (pixels_of img) (exif_bytes file)]>
    (files w1).
Proof.
  intros Hr Hs. rewrite save_exif_data_stages.
  rewrite (bind_val _ _ _ _ _ Hr). cbn iota.
  rewrite (bind_val _ _ _ _ _ Hs).
  destruct (verify _ _ _ w2) as [r w3] eqn:E. cbn [snd].
  apply verify_store in E as (-> & _).
  revert Hs. unfold save. repeat case_match; intros ?; simplify_eq. done.
Qed.

(** What [resolve] can do to the files: nothing, or the removal of the
    naive destination. *)
Lemma resolve_files file output_path overwrite w r w1 :
  resolve file output_path overwrite w = (r, w1) ->
  files w1 = files w \/ files w1 = delete (naive file output_path) (files w).
Proof.
  unfold resolve, bind, exists_, remove, ret.
  destruct (makedirs output_path w) as [[[]|e] w0] eqn:Em.
  - apply makedirs_val in Em as (Ef & _). rewrite <- Ef.
    repeat case_match; intros ?; simplify_eq; cbn; eauto.
  - apply makedirs_exc in Em as ->. intros ?; simplify_eq. eauto.
Qed.

Lemma resolve_out file output_path overwrite w r w1 :
  resolve file output_path overwrite w = (r, w1) ->
  out w1 = out w /\ live w1 = live w /\ denied w1 = denied w.
Proof.
  unfold resolve, bind, exists_, remove, ret.
  destruct (makedirs output_path w) as [[[]|e] w0] eqn:Em.
  - apply makedirs_val in Em as (_ & Ed & El & _ & Eo & _).
    rewrite <- Ed, <- El, <- Eo.
    repeat case_match; intros ?; simplify_eq; cbn; eauto.
  - apply makedirs_exc in Em as ->. intros ?; simplify_eq. eauto.
Qed.

(** The policy when a file is at the naive destination. *)
Lemma resolve_taken file output_path overwrite w w1 c :
  makedirs output_path w = (Val tt, w1) ->
  files w !! naive file output_path = Some c ->
  denied w (naive file output_path) = false ->
  resolve file output_path overwrite w =
  if overwrite
  then (Val true, with_files (delete (naive file output_path) (files w)) w1)
  else (Val false, w1).
Proof.
  intros Hm Hf Hd. unfold resolve.
  rewrite (bind_val _ _ _ _ _ Hm).
  destruct (makedirs_val _ _ _ Hm) as (Ef & Ed & _).
  rewrite <- Ef in Hf. rewrite <- Ed in Hd.
  rewrite (bind_val _ _ _ _ _ (exists_file _ _ _ Hf)).
  destruct overwrite; cbn [andb negb]; [|done].
  rewrite (bind_val _ _ _ _ _ (remove_file _ _ _ Hf Hd)).
  by rewrite Ef.
Qed.

(** What [verify] writes out and returns. *)
Lemma verify_out file img w r w' :
  verify Nd_other file img w = (r, w') ->
  (exists rest,
     out w' = out w ++ LoggerInfo (Saved (new_file_path file)) :: rest)
  /\ (forall f', r = Val (Some f') -> f' = file).
Proof.
  unfold verify, bind, close, emit.
  destruct (check_exif _ _ _) as [[[]|e] w2] eqn:E; unfold ret, raise;
    intros ?; simplify_eq;
    apply grows_check_exif in E as [rest E]; cbn in E; rewrite E;
    (split; [exists rest; by rewrite <- app_assoc | by intros f' [= <-] || done]).
Qed.

(** [save_exif_data] changes the set of directories by [os.makedirs]
    alone. *)
Lemma save_exif_data_dirs file img output_path overwrite keep w w1 :
  makedirs output_path w = (Val tt, w1) ->
  dirs (save_exif_data Nd_other file img output_path overwrite keep w).2
  = {[output_path]} ∪ dirs w.
Proof.
  intros Hm. destruct (makedirs_val _ _ _ Hm) as (_ & _ & _ & _ & _ & <-).
  rewrite save_exif_data_stages. unfold bind at 1.
  destruct (resolve _ _ _ w) as [[go|e] w2] eqn:Er.
  - assert (Ed : dirs w2 = dirs w1).
    { revert Er. unfold resolve. rewrite (bind_val _ _ _ _ _ Hm).
      unfold bind, exists_, remove, ret.
      repeat case_match; intros ?; simplify_eq; done. }
    rewrite <- Ed. destruct go; [|done].
    unfold bind at 1.
    destruct (save _ _ _ w2) as [[[]|e] w3] eqn:Es.
    + destruct (verify _ _ _ w3) as [rv w4] eqn:Ev. cbn [snd].
      apply verify_store in Ev as (_ & Ev & _). rewrite Ev.
      revert Es. unfold save. repeat case_match; intros ?; simplify_eq; done.
    + revert Es. unfold save. repeat case_match; intros ?; simplify_eq; done.
  - revert Er. unfold resolve. rewrite (bind_val _ _ _ _ _ Hm).
    unfold bind, exists_, remove, ret.
    repeat case_match; intros ?; simplify_eq; done.
Qed.

(** [save_exif_data] with a file at the naive destination, case by
    case. *)
Lemma save_exif_data_taken file img output_path overwrite keep w w1 c :
  makedirs output_path w = (Val tt, w1) ->
  files w !! naive file output_path = Some c ->
  let r := save_exif_data Nd_other file img output_path overwrite keep w in
  let new := Picture (pixels_of img) (exif_bytes file) in
  let removed := delete (naive file output_path) (files w) in
  let dest := target file output_path keep in
  if overwrite then
    if denied w (naive file output_path)
    then r = (Exc (PermissionError (naive file output_path)), w1)
    else if bool_decide (dest ∈ dirs w1) || denied w dest
         then files r.2 = removed /\ exists e, r = (Exc e, with_files removed w1)
         else files r.2 = <[dest := new]> removed
  else r = (Val None, w1) /\ files w1 = files w.
Proof.
  intros Hm Hf r new removed dest.
  destruct (makedirs_val _ _ _ Hm) as (Ef & Ed & _).
  destruct overwrite.
  - destruct (denied w (naive file output_path)) eqn:Hd.
    + assert (Hr : resolve file output_path true w
                   = (Exc (PermissionError (naive file output_path)), w1)).
      { unfold resolve. rewrite (bind_val _ _ _ _ _ Hm).
        rewrite <- Ef in Hf. rewrite <- Ed in Hd.
        rewrite (bind_val _ _ _ _ _ (exists_file _ _ _ Hf)).
        cbn [andb negb]. unfold bind, remove. by rewrite Hf, Hd. }
      subst r. by rewrite save_exif_data_stages, (bind_exc _ _ _ _ _ Hr).
    + pose proof (resolve_taken file output_path true w w1 c Hm Hf Hd) as Hr.
      cbn iota in Hr.
      destruct (bool_decide (dest ∈ dirs w1) || denied w dest) eqn:Hs.
      * assert (Es : exists e,
          save img dest (exif_bytes file) (with_files removed w1)
          = (Exc e, with_files removed w1)).
        { unfold save. cbn [dirs denied with_files]. rewrite Ed.
          destruct (bool_decide (dest ∈ dirs w1)); [by eauto|].
          cbn in Hs. rewrite Hs. by eauto. }
        destruct Es as [e Es].
        assert (E : r = (Exc e, with_files removed w1)).
        { subst r. rewrite save_exif_data_stages, (bind_val _ _ _ _ _ Hr).
          cbn iota. by rewrite (bind_exc _ _ _ _ _ Es). }
        rewrite E. split; [done|by eauto].
      * apply orb_false_elim in Hs as [Hn Hp].
        apply bool_decide_eq_false in Hn.
        subst r. erewrite save_exif_data_written; [| exact Hr |]; [done|].
        apply save_ok; cbn; [done|by rewrite Ed].
  - subst r. split; [|done].
    assert (Hr : resolve file output_path false w = (Val false, w1)).
    { unfold resolve. rewrite (bind_val _ _ _ _ _ Hm).
      rewrite <- Ef in Hf.
      by rewrite (bind_val _ _ _ _ _ (exists_file _ _ _ Hf)). }
    by rewrite save_exif_data_stages, (bind_val _ _ _ _ _ Hr).
Qed.

(** C5, amended.  With a file at the naive destination: when [overwrite]
    is false the write is aborted, the source is not written and no file
    changes; when [overwrite] is true the file there is removed first (if
    that is refused nothing else is done), and then the new file is
    written at the [_1] path when [keep_original_path] is false and at the
    source path when it is true; if that write is refused the removal
    stays and no file is written. *)
Theorem collision_policy file img output_path overwrite keep w w1 c :
  makedirs output_path w = (Val tt, w1) ->
  files w !! naive file output_path = Some c ->
  let r := save_exif_data Nd_other file img output_path overwrite keep w in
  let new := Picture (pixels_of img) (exif_bytes file) in
  let removed := delete (naive file output_path) (files w) in
  let dest := if keep then file_path file
              else disambiguated file output_path in
  if overwrite then
    if denied w (naive file output_path)
    then r = (Exc (PermissionError (naive file output_path)), w1)
    else if bool_decide (dest ∈ dirs w1) || denied w dest
         then files r.2 = removed /\ exists e, r = (Exc e, with_files removed w1)
         else files r.2 = <[dest := new]> removed
  else r = (Val None, w1) /\ files w1 = files w.
Proof. apply save_exif_data_taken. Qed.

(** C7.  With [keep_original_path], when the policy lets the write go on
    and the save succeeds: the stamped image is written at the source
    path; no path that held no file holds one afterwards, and no other
    path but the naive destination changes; the path recorded and
    returned is the one the file had, not the [_1] path. *)
Theorem keep_original_path_in_place file img output_path overwrite w w1 w2 :
  resolve file output_path overwrite w = (Val true, w1) ->
  save img (file_path file) (exif_bytes file) w1 = (Val tt, w2) ->
  let r := save_exif_data Nd_other file img output_path overwrite true w in
  files r.2 = <[file_path file := Picture (pixels_of img) (exif_bytes file)]>
                (files w1)
  /\ (forall q, q ≠ file_path file -> files w !! q = None ->
                files r.2 !! q = None)
  /\ (forall q, q ≠ file_path file -> q ≠ naive file output_path ->
                files r.2 !! q = files w !! q)
  /\ (exists rest,
        out r.2 = out w ++ LoggerInfo (Saved (new_file_path file)) :: rest)
  /\ (forall f', r.1 = Val (Some f') -> f' = file).
Proof.
  intros Hr Hs r.
  assert (Hw : files r.2 =
    <[file_path file := Picture (pixels_of img) (exif_bytes file)]> (files w1)).
  { subst r. by erewrite (save_exif_data_written _ _ _ _ true). }
  split; [done|]. rewrite Hw.
  assert (Ho : (exists rest,
        out r.2 = out w ++ LoggerInfo (Saved (new_file_path file)) :: rest)
      /\ (forall f', r.1 = Val (Some f') -> f' = file)).
  { subst r. rewrite save_exif_data_stages, (bind_val _ _ _ _ _ Hr).
    cbn iota. unfold target, written. rewrite (bind_val _ _ _ _ _ Hs).
    destruct (verify _ _ _ w2) as [rv w3] eqn:Ev. cbn [fst snd].
    apply verify_out in Ev as [Ev ?]. split; [|done].
    destruct (resolve_out _ _ _ _ _ _ Hr) as (<- & _).
    revert Hs Ev. unfold save. repeat case_match; intros ?; simplify_eq. done. }
  destruct (resolve_files _ _ _ _ _ _ Hr) as [E|E]; rewrite E.
  - split; [|split; [|done]].
    + intros q Hq Hn. by rewrite lookup_insert_ne.
    + intros q Hq _. by rewrite lookup_insert_ne.
  - split; [|split; [|done]].
    + intros q Hq Hn. rewrite lookup_insert_ne by done.
      apply lookup_delete_None. eauto.
    + intros q Hq Hq'. rewrite lookup_insert_ne, lookup_delete_ne; done.
Qed.

(** When the directory cannot be ensured nothing else is done. *)
Lemma save_exif_data_makedirs_first file img output_path overwrite keep w e w1 :
  makedirs output_path w = (Exc e, w1) ->
  save_exif_data Nd_other file img output_path overwrite keep w = (Exc e, w).
Proof.
  intros Hm. unfold save_exif_data. rewrite (bind_exc _ _ _ _ _ Hm).
  by rewrite (makedirs_exc _ _ _ _ Hm).
Qed.

(** C10.  With [keep_original_path] too, [save_exif_data] first ensures
    the output directory, which is there afterwards whether or not it was
    before and whatever follows, and applies the collision policy to the
    naive destination: with a file there, [overwrite] false skips the
    in-place write altogether, and [overwrite] true deletes that file
    although the stamped image is then written at the source path; the
    file is deleted even when the write at the source is refused. *)
Theorem in_place_applies_collision_policy file img output_path overwrite w w1 :
  makedirs output_path w = (Val tt, w1) ->
  let r := save_exif_data Nd_other file img output_path overwrite true w in
  let new := Picture (pixels_of img) (exif_bytes file) in
  let removed := delete (naive file output_path) (files w) in
  dirs r.2 = {[output_path]} ∪ dirs w
  /\ (is_Some (files w !! naive file output_path) ->
      if overwrite then
        if denied w (naive file output_path)
        then r = (Exc (PermissionError (naive file output_path)), w1)
        else if bool_decide (file_path file ∈ dirs w1) || denied w (file_path file)
             then files r.2 = removed
                  /\ exists e, r = (Exc e, with_files removed w1)
             else files r.2 = <[file_path file := new]> removed
      else r = (Val None, w1) /\ files w1 = files w).
Proof.
  intros Hm r new removed. split.
  - by apply save_exif_data_dirs with w1.
  - intros [c Hf].
    exact (save_exif_data_taken file img output_path overwrite true w w1 c Hm Hf).
Qed.

End Resolver.
End Resolver.

(** ** The Destination Resolver on an example *)

Module ResolverExamples.
Import Env Main Stages Stated Examples EnvFacts Resolver.

Lemma ex_dec (P : Prop) `{Decision P} : bool_decide P = true -> P.
Proof. apply bool_decide_eq_true. Qed.

(** C5 as worded fails with [keep_original_path]: the [_1] path gets no
    file. *)
Lemma collision_policy_as_stated_fails :
  ~ exists Nd_other,
      collision_policy_as_stated Nd_other IMG_stamped opened (py "out")
                                 true true taken_world_open.
Proof.
  intros [Nd H]. unfold collision_policy_as_stated in H.
  specialize (H (ex_intro _ _ eq_refl)). cbv zeta in H.
  apply (f_equal (fun m => m !! disambiguated IMG_stamped (py "out"))) in H.
  rewrite lookup_insert_eq in H.
  vm_compute in H. discriminate H.
Qed.

(** The policy on [IMG], with a file at its naive destination: with
    [overwrite] that file is removed and the copy written at the [_1]
    path; without it nothing is done. *)
Lemma collision_policy_witness :
  (let r := save_exif_data Nd_ascii IMG_stamped opened (py "out") true false
                           taken_world_open in
   files r.2 =
   <[disambiguated IMG_stamped (py "out") := Picture 7 stamp]>
     (delete (naive IMG_stamped (py "out")) (files taken_world_open)))
  /\ save_exif_data Nd_ascii IMG_stamped opened (py "out") false false
                    taken_world_open
     = (Val None, taken_world_open).
Proof.
  split.
  - refine (collision_policy Nd_ascii IMG_stamped opened (py "out") true false
              taken_world_open taken_world_open (Picture 9 NoBytes) _ _).
    + vm_compute. reflexivity.
    + vm_compute. reflexivity.
  - refine (proj1 (collision_policy Nd_ascii IMG_stamped opened (py "out") false
                     false taken_world_open taken_world_open (Picture 9 NoBytes)
                     _ _)).
    + vm_compute. reflexivity.
    + vm_compute. reflexivity.
Defined.

(** [IMG] stamped in place, with a file at its naive destination and
    [overwrite]. *)
Lemma keep_original_path_in_place_witness :
  let w1 := (resolve IMG_stamped (py "out") true taken_world_open).2 in
  let r := save_exif_data Nd_ascii IMG_stamped opened (py "out") true true
                          taken_world_open in
  files r.2 = <[file_path IMG_stamped := Picture 7 stamp]> (files w1)
  /\ (forall q, q ≠ file_path IMG_stamped -> files taken_world_open !! q = None ->
                files r.2 !! q = None)
  /\ (forall q, q ≠ file_path IMG_stamped -> q ≠ naive IMG_stamped (py "out") ->
                files r.2 !! q = files taken_world_open !! q)
  /\ (exists rest,
        out r.2 = out taken_world_open
                  ++ LoggerInfo (Saved (new_file_path IMG_stamped)) :: rest)
  /\ (forall f', r.1 = Val (Some f') -> f' = IMG_stamped).
Proof.
  eapply (keep_original_path_in_place Nd_ascii IMG_stamped opened (py "out") true
            taken_world_open).
  - vm_compute. reflexivity.
  - vm_compute. reflexivity.
Defined.

(** Before the first run the in-place write of [IMG] creates the output
    directory, where nothing is written; and in the run above the file at
    the naive destination is deleted and the source rewritten. *)
Lemma in_place_applies_collision_policy_witness :
  ((py "out" ∉ dirs fresh_world_open)
   /\ dirs (save_exif_data Nd_ascii IMG_stamped opened (py "out") false true
                           fresh_world_open).2
      = {[py "out"]} ∪ dirs fresh_world_open)
  /\ files (save_exif_data Nd_ascii IMG_stamped opened (py "out") true true
                           taken_world_open).2
     = <[file_path IMG_stamped := Picture 7 stamp]>
         (delete (naive IMG_stamped (py "out")) (files taken_world_open)).
Proof.
  split; [split|].
  - apply (proj1 (bool_decide_eq_false _)). vm_compute. reflexivity.
  - refine (proj1 (in_place_applies_collision_policy Nd_ascii IMG_stamped opened
                     (py "out") false fresh_world_open
                     (makedirs (py "out") fresh_world_open).2 _)).
    vm_compute. reflexivity.
  - refine (proj2 (in_place_applies_collision_policy Nd_ascii IMG_stamped opened
                     (py "out") true taken_world_open taken_world_open _)
              (ex_intro _ (Picture 9 NoBytes) _)).
    + vm_compute. reflexivity.
    + vm_compute. reflexivity.
Defined.

End ResolverExamples.

(** ** The Metadata Synthesizer *)

Module Synthesizer.
Import Env Main Reference Stages Examples EnvFacts TextFacts.

Section Synthesizer.

Variable Nd_other : N -> bool.

(** The synthesizer builds a block of two tags with one value, changes no
    file and writes one logger record. *)
Lemma new_image_exif_data_block file w b :
  encode (fmt (parsed_date file) ++ py " 00:00:00") = Some b ->
  let d := [(DateTimeOriginal, BytesV b); (DateTimeDigitized, BytesV b)] in
  new_image_exif_data file w =
  (Val (set_exif_bytes (Block d) file, Block d), logged (LoggerInfo (NewExif d)) w).
Proof. intros E. unfold new_image_exif_data. by rewrite E. Qed.

(** C6.  For a file whose [parsed_date] is [2023:06:15 00:00:00], itself
    in the format [YYYY:MM:DD HH:MM:SS], the synthesizer gives both tags
    the value [2023:06:15 00:00:00 00:00:00], which is not in that
    format. *)
Theorem new_image_exif_data_appends_a_second_time (w : world) :
  let file := set_parsed_date (Some (py "2023:06:15 00:00:00")) IMG in
  let value := ascii_bytes "2023:06:15 00:00:00 00:00:00" in
  let d := [(DateTimeOriginal, BytesV value); (DateTimeDigitized, BytesV value)] in
  new_image_exif_data file w =
    (Val (set_exif_bytes (Block d) file, Block d),
     logged (LoggerInfo (NewExif d)) w)
  /\ decode value = Some (py "2023:06:15 00:00:00 00:00:00")
  /\ exif_datetime Nd_other (py "2023:06:15 00:00:00 00:00:00") = false
  /\ exif_datetime Nd_other (py "2023:06:15 00:00:00") = true.
Proof.
  cbv zeta. split; [|split; [|split]].
  - by apply new_image_exif_data_block.
  - vm_compute. reflexivity.
  - vm_compute. reflexivity.
  - vm_compute. reflexivity.
Qed.

(** C8.  For [photo.jpg], a name without a date, the parser leaves
    [parsed_date] empty and the synthesizer, which [process_file] runs on
    every [parsed_date] that is not [None], sets [exif_bytes]. *)
Theorem exif_bytes_set_without_parsed_date (w : world) :
  let r := (let* file := parse_filename_to_date Nd_other photo in
            new_image_exif_data file) w in
  exists file b,
    r.1 = Val (file, Block b)
    /\ parsed_date file = Some []
    /\ exif_bytes file = Block b
    /\ b ≠ [].
Proof.
  cbv zeta. eexists _, _. split; [|split; [|split]].
  - vm_compute. reflexivity.
  - reflexivity.
  - reflexivity.
  - discriminate.
Qed.

End Synthesizer.
End Synthesizer.

(** ** The pipeline after a write *)

Module Pipeline.
Import Env Main Reference Stages EnvFacts TextFacts ReFacts Parser Resolver Inspector.

Section Pipeline.

Variable Nd_other : N -> bool.

Lemma scan_tags_value (d : ifd) (w w0 : world) :
  (scan_tags Nd_other d w).1 = (scan_tags Nd_other d w0).1.
Proof.
  induction d as [|[t v] d IH]; [done|]. cbn [scan_tags].
  repeat case_match; done.
Qed.

(** The answer of the Inspector is a function of what the file holds. *)
Lemma check_exif_content file file0 w w0 c :
  file_path file0 = file_path file ->
  files w !! file_path file = Some c ->
  files w0 !! file_path file = Some c ->
  (check_exif Nd_other file w).1 = (check_exif Nd_other file0 w0).1.
Proof.
  intros Hp H H0.
  unfold check_exif, export_exif_data, bind, read_image, piexif_load_Exif,
    ret, raise.
  rewrite Hp, H, H0. destruct c as [px ex|]; [|done].
  destruct ex as [|d|]; [done| |done].
  destruct d as [|x d]; [done|]. apply scan_tags_value.
Qed.

Lemma check_exif_missing file w :
  files w !! file_path file = None ->
  exists e, check_exif Nd_other file w = (Exc e, w).
Proof.
  intros H. unfold check_exif, export_exif_data, bind, read_image.
  rewrite H. case_bool_decide; eauto.
Qed.

Lemma check_exif_stamped file w px d :
  files w !! file_path file = Some (Picture px (Block d)) ->
  (forall w0, scan_tags Nd_other d w0 = (Val false, w0)) ->
  check_exif Nd_other file w = (Val false, w).
Proof.
  intros H Hd. unfold check_exif, export_exif_data, bind, read_image.
  rewrite H. unfold piexif_load_Exif, ret. destruct d; [done|]. apply Hd.
Qed.

Lemma resolve_false file output_path overwrite w w1 :
  resolve file output_path overwrite w = (Val false, w1) -> files w1 = files w.
Proof.
  unfold resolve, bind, exists_, remove, ret.
  destruct (makedirs output_path w) as [[[]|e] w0] eqn:Em; [|done].
  apply makedirs_val in Em as (Ef & _). rewrite <- Ef.
  repeat case_match; intros ?; simplify_eq; done.
Qed.

(** [save_exif_data] returns normally only when the collision policy
    aborts the write: once a block without a date is written, the
    assertion fails (or the Inspector cannot read the source any more). *)
Lemma save_exif_data_returns file img output_path overwrite keep w d r w' :
  exif_bytes file = Block d ->
  (forall w0, scan_tags Nd_other d w0 = (Val false, w0)) ->
  (forall c, files w !! file_path file = Some c ->
             (check_exif Nd_other file w).1 = Val false) ->
  save_exif_data Nd_other file img output_path overwrite keep w = (Val r, w') ->
  r = None /\ files w' = files w.
Proof.
  intros Hd Hscan Hsrc. rewrite save_exif_data_stages. unfold bind at 1.
  destruct (resolve _ _ _ w) as [[go|e] w1] eqn:Er; [|done].
  destruct go.
  - intros H. exfalso. revert H. unfold bind at 1.
    destruct (save _ _ _ w1) as [[[]|e] w2] eqn:Es; [|done].
    assert (Ew2 : files w2 = <[target file output_path keep :=
                                 Picture (pixels_of img) (Block d)]> (files w1)).
    { revert Es. unfold save. rewrite Hd.
      repeat case_match; intros ?; simplify_eq. done. }
    assert (Hp : file_path (written file output_path keep) = file_path file)
      by (by destruct keep).
    unfold verify, bind, close, emit.
    match goal with |- context [check_exif _ _ ?w3] => set (w3' := w3) end.
    assert (Ew3 : files w3' = files w2) by done.
    destruct (decide (target file output_path keep = file_path file)) as [Et|Et].
    + rewrite (check_exif_stamped _ w3' (pixels_of img) d); [done| |done].
      by rewrite Hp, Ew3, Ew2, <- Et, lookup_insert_eq.
    + destruct (files w1 !! file_path file) as [c|] eqn:Ec.
      * assert (Hc : files w !! file_path file = Some c).
        { destruct (resolve_files _ _ _ _ _ _ Er) as [E|E]; rewrite E in Ec;
            [done|]. by apply lookup_delete_Some in Ec as [_ ?]. }
        assert (Hv : (check_exif Nd_other (written file output_path keep) w3').1
                     = Val false).
        { rewrite <- (Hsrc c Hc). symmetry.
          eapply check_exif_content; [done|done|].
          by rewrite Ew3, Ew2, lookup_insert_ne. }
        destruct (check_exif _ _ w3') as [[[]|?] ?]; cbn in Hv; done.
      * destruct (check_exif_missing (written file output_path keep) w3')
          as [e He].
        { by rewrite Hp, Ew3, Ew2, lookup_insert_ne. }
        by rewrite He.
  - unfold ret. intros [= <- <-]. split; [done|].
    by apply resolve_false in Er.
Qed.

Lemma Image_open_val p w im w1 :
  Image_open p w = (Val im, w1) ->
  same_store w w1 /\ out w1 = out w /\ is_Some (files w !! p).
Proof.
  unfold Image_open, bind, read_image.
  repeat case_match; intros ?; simplify_eq; eauto.
  repeat split; eauto.
Qed.

(** Whenever [process_file] returns normally no file has changed: every
    run that writes a file ends in an exception. *)
Lemma process_file_returns file args w w' :
  (max_run Nd_other (fmt (parsed_date file)) < 8)%nat ->
  process_file Nd_other file args w = (Val tt, w') -> files w' = files w.
Proof.
  intros Hrun. unfold process_file. unfold bind at 1.
  destruct (Image_open _ w) as [[im|e] w1] eqn:Eo; [|done].
  apply Image_open_val in Eo as ((Ef1 & _) & _ & [c Hc]).
  unfold bind at 1.
  destruct (check_exif _ file w1) as [[has|e] w2] eqn:Ec; [|done].
  pose proof (check_exif_store _ _ _ _ _ Ec) as (Ef2 & _).
  destruct has.
  { unfold emit. intros [= <-]. cbn. congruence. }
  unfold bind at 1. rewrite parse_filename_to_date_eq.
  set (file2 := match reference_parser Nd_other (filename file) with
                | Some d => set_parsed_date (Some d) file
                | None => file
                end).
  set (w3 := match reference_parser Nd_other (filename file) with
             | Some d => logged (LoggerInfo (ParsedDate (Some d))) w2
             | None => w2
             end).
  assert (E3 : match reference_parser Nd_other (filename file) with
               | Some d => (Val (set_parsed_date (Some d) file),
                            logged (LoggerInfo (ParsedDate (Some d))) w2)
               | None => (Val file, w2)
               end = (Val file2, w3))
    by (subst file2 w3; by destruct (reference_parser _ _)).
  rewrite E3. clear E3.
  assert (Ef3 : files w3 = files w2)
    by (subst w3; by destruct (reference_parser _ _)).
  assert (Hp2 : file_path file2 = file_path file)
    by (subst file2; by destruct (reference_parser _ _)).
  assert (Hrun2 : (max_run Nd_other (fmt (parsed_date file2)) < 8)%nat).
  { subst file2. destruct (reference_parser _ _) as [d|] eqn:Ed; [|done].
    apply reference_parser_max_run in Ed. cbn. lia. }
  destruct (parsed_date file2) as [pd|] eqn:Epd.
  2: { unfold ret. intros [= <-]. congruence. }
  rewrite <- Epd in Hrun2. unfold bind at 1.
  destruct (new_image_exif_data file2 w3) as [[[file3 blk]|e] w4] eqn:En; [|done].
  destruct (synthesized_block_has_no_date _ _ _ _ _ _ Hrun2 En)
    as (d & -> & Hd & Hscan).
  assert (Ef4 : files w4 = files w3 /\ file_path file3 = file_path file2).
  { revert En. unfold new_image_exif_data, bind, emit, ret, raise.
    destruct (encode _); intros ?; simplify_eq. done. }
  destruct Ef4 as [Ef4 Hp3].
  unfold bind at 1.
  destruct (save_exif_data _ _ _ _ _ _ w4) as [[r|e] w5] eqn:Es; [|done].
  apply save_exif_data_returns with (d := d) in Es as [_ Ef5]; [|done|done|].
  - unfold bind, emit. intros [= <-]. cbn. congruence.
  - intros c4 Hc4.
    assert (Hc1 : files w1 !! file_path file = Some c4) by congruence.
    rewrite <- (check_exif_content file file3 w1 w4 c4); [by rewrite Ec|congruence|done|].
    congruence.
Qed.

(** So for every file as discovery creates it. *)
Lemma process_file_returns_discovered name path ext args w w' :
  process_file Nd_other (discovered name path ext) args w = (Val tt, w') ->
  files w' = files w.
Proof. apply process_file_returns. cbn. lia. Qed.

End Pipeline.
End Pipeline.

(** ** The File Pipeline Orchestrator *)

Module Orchestrator.
Import Env Main Reference Stages Stated Examples EnvFacts TextFacts.

Section Orchestrator.

Variable Nd_other : N -> bool.

(** C1.  [IMG-20230615-WA0001.jpg] without EXIF, in a fresh output
    directory: the stamped file is written at the [_1] path, the
    Inspector reports no date on it, and the assertion after the write
    fails; so it does when the source is stamped in place. *)
Theorem stamped_file_fails_the_check :
  let r := process_file Nd_other IMG (args false false) fresh_world in
  let output := py "out/IMG-20230615-WA0001_1.jpg" in
  let in_place := process_file Nd_other IMG (args false true) fresh_world in
  files r.2 !! output = Some (Picture 7 stamp)
  /\ (check_exif Nd_other (discovered (py "IMG-20230615-WA0001_1.jpg") output
                                     (py "jpg")) r.2).1 = Val false
  /\ r.1 = Exc (AssertionError assertion_message)
  /\ files in_place.2 !! file_path IMG = Some (Picture 7 stamp)
  /\ in_place.1 = Exc (AssertionError assertion_message).
Proof.
  cbv zeta. repeat split; vm_compute; reflexivity.
Qed.

(** C2.  [photo.jpg], a name without a date: the parser returns the file
    as it was, and yet a block with the value [ 00:00:00] is synthesized
    and written at the [_1] path, and the run of the file ends in an
    error. *)
Theorem file_without_date_is_stamped :
  let r := process_file Nd_other photo (args false false) fresh_world in
  let value := ascii_bytes " 00:00:00" in
  parse_filename_to_date Nd_other photo fresh_world = (Val photo, fresh_world)
  /\ files fresh_world !! py "out/photo_1.jpg" = None
  /\ files r.2 !! py "out/photo_1.jpg" =
     Some (Picture 8 (Block [(DateTimeOriginal, BytesV value);
                             (DateTimeDigitized, BytesV value)]))
  /\ r.1 = Exc (AssertionError assertion_message).
Proof.
  cbv zeta. repeat split; vm_compute; reflexivity.
Qed.

(** C9.  The image handle ([0], the first one opened) is still open after
    [process_file] when the write is aborted by the collision policy,
    when the file is skipped for having a date, and when the save
    raises. *)
Theorem image_handle_left_open :
  let aborted := process_file Nd_other IMG (args false false) taken_world in
  let skipped := process_file Nd_other dated (args false false) fresh_world in
  let failed := process_file Nd_other IMG (args false false) locked_world in
  (aborted.1 = Val tt /\ live aborted.2 = {[ 0%nat ]})
  /\ (skipped.1 = Val tt /\ live skipped.2 = {[ 0%nat ]})
  /\ (failed.1 = Exc (PermissionError (py "out/IMG-20230615-WA0001_1.jpg"))
      /\ live failed.2 = {[ 0%nat ]}).
Proof.
  cbv zeta. repeat split; vm_compute; reflexivity.
Qed.

End Orchestrator.
End Orchestrator.

(** ** The loop of [main] *)

Module Batch.
Import Env Main Reference Stages Stated Examples EnvFacts TextFacts.

Section Batch.

Variable Nd_other : N -> bool.
Variable lib_text : exn -> str.

(** One turn of the loop: whatever [process_file] does, the loop goes on
    with the rest from the world [after_file] describes. *)
Lemma for_files_cons file rest args w :
  for_files Nd_other lib_text (file :: rest) args w =
  for_files Nd_other lib_text rest args (after_file Nd_other lib_text args w file).
Proof.
  cbn [for_files]. unfold after_file, bind, try_except, emit.
  by destruct (process_file _ _ _ _) as [[[]|e] w1].
Qed.

(** C4, amended.  The loop never raises: it handles every file of the
    list in order, each from the world the one before left; an exception
    of [process_file] is caught and recorded as [An error occurred: ]
    followed by the text of the exception, after the status text was set
    to [Processing: ] and the path of the file; [main] ends with
    [Run complete.]. *)
Theorem batch_survives_failures args files_list w :
  for_files Nd_other lib_text files_list args w =
    (Val tt, foldl (after_file Nd_other lib_text args) w files_list)
  /\ main Nd_other lib_text args files_list w =
    (Val tt,
     logged (SpinnerSucceed (py "Run complete."))
       (foldl (after_file Nd_other lib_text args)
          (logged (SpinnerStart (py "Retrieving list of media files..." ++ [10])) w)
          files_list)).
Proof.
  assert (H : forall w, for_files Nd_other lib_text files_list args w =
    (Val tt, foldl (after_file Nd_other lib_text args) w files_list)).
  { induction files_list as [|file rest IH]; intros w0; [done|].
    rewrite for_files_cons, IH. done. }
  split; [apply H|].
  unfold main, bind, emit. by rewrite H.
Qed.

End Batch.

(** C4 as worded fails: the record of the failure of
    [IMG-20230615-WA0001.jpg] is the text of the assertion, which does
    not name the file. *)
Lemma failure_logged_with_identity_fails :
  ~ exists Nd_other lib_text,
      failure_logged_with_identity Nd_other lib_text IMG (args false false)
                                   fresh_world.
Proof.
  intros (Nd & lt & H). unfold failure_logged_with_identity in H.
  edestruct H as (text & Hlast & Hid).
  { vm_compute. reflexivity. }
  vm_compute in Hlast. injection Hlast as <-.
  vm_compute in Hid. discriminate Hid.
Qed.

End Batch.
(** ** Paths: what [join], [basename] and [splitext] guarantee *)

Module PathLemmas.
Import Os_path Discovery.

Lemma eqb_sep_false (c : N) (s : str) : sep ∉ c :: s -> (c =? sep) = false.
Proof.
  intros H. apply N.eqb_neq. intros ->. apply H. by left.
Qed.

Lemma rfind_from_notin (c : N) (s : str) (i : Z) :
  c ∉ s -> rfind_from c s i = (-1)%Z.
Proof.
  revert i. induction s as [|x s IH]; intros i H; [done|].
  cbn [rfind_from]. rewrite IH by (intros ?; apply H; by right).
  cbn. destruct (N.eqb_spec x c) as [->|]; [|done].
  exfalso. apply H. by left.
Qed.

Lemma rfind_from_last (c : N) (a b : str) (i : Z) :
  (0 <= i)%Z -> c ∉ b ->
  rfind_from c (a ++ c :: b) i = (i + Z.of_nat (length a))%Z.
Proof.
  intros Hi Hb. revert i Hi. induction a as [|x a IH]; intros i Hi.
  - cbn [app rfind_from length]. rewrite rfind_from_notin by done.
    cbn. rewrite N.eqb_refl. lia.
  - cbn [app rfind_from length]. rewrite IH by lia.
    destruct (Z.leb_spec 0 (i + 1 + Z.of_nat (length a))); lia.
Qed.

(** [splitext] loses nothing: the two parts make the path. *)
Lemma splitext_app (p : str) : (splitext p).1 ++ (splitext p).2 = p.
Proof.
  unfold splitext. case_match; cbn [fst snd].
  - apply take_drop.
  - apply app_nil_r.
Qed.

(** Without a dot there is no extension. *)
Lemma splitext_no_dot (p : str) : extsep ∉ p -> splitext p = (p, []).
Proof.
  intros H. unfold splitext, rfind. rewrite (rfind_from_notin extsep) by done.
  destruct (rfind_from sep p 0 <? -1)%Z eqn:E; [|done].
  exfalso. apply Z.ltb_lt in E.
  assert (forall s i, (0 <= i)%Z -> (-1 <= rfind_from sep s i)%Z) as B.
  { clear. induction s as [|x s IH]; intros i Hi; cbn [rfind_from]; [lia|].
    specialize (IH (i + 1)%Z). repeat case_match; lia. }
  specialize (B p 0%Z). lia.
Qed.

(** [os.path.basename] undoes [os.path.join] on a name without a
    separator. *)
Lemma basename_join (root name : str) :
  sep ∉ name -> basename (join root name) = name.
Proof.
  intros H.
  assert (B0 : basename name = name).
  { unfold basename, rfind. by rewrite rfind_from_notin. }
  assert (B1 : forall r, basename (r ++ sep :: name) = name).
  { intros r. unfold basename, rfind. rewrite rfind_from_last by done.
    replace (Z.to_nat (0 + Z.of_nat (length r) + 1)) with (S (length r)) by lia.
    rewrite (cons_middle sep r name), app_assoc.
    apply drop_app_length'. rewrite length_app. cbn. lia. }
  assert (F : basename (match last root with
                        | Some z => if z =? sep then root ++ name
                                    else root ++ sep :: name
                        | None => name
                        end) = name).
  { destruct (last root) as [z|] eqn:El; [|done].
    destruct (N.eqb_spec z sep) as [->|]; [|apply B1].
    apply last_Some in El as [r ->]. rewrite <- app_assoc. apply B1. }
  unfold join. destruct name as [|c name]; [done|].
  by rewrite (eqb_sep_false c name).
Qed.

(** The extension of [stem.e], for a name [stem] that is not only dots. *)
Lemma splitext_ext (stem e : str) :
  sep ∉ stem -> sep ∉ e -> extsep ∉ e ->
  existsb (fun c => negb (c =? extsep)) stem = true ->
  splitext (stem ++ extsep :: e) = (stem, extsep :: e).
Proof.
  intros Hs He Hd Hn. unfold splitext, rfind.
  rewrite (rfind_from_last extsep) by done.
  rewrite (rfind_from_notin sep).
  2: { rewrite elem_of_app, elem_of_cons. intros [?|[?|?]]; done. }
  unfold slice. rewrite drop_0.
  replace (Z.to_nat (0 + Z.of_nat (length stem) - (-1 + 1)))
    with (length stem) by lia.
  replace (Z.to_nat (0 + Z.of_nat (length stem))) with (length stem) by lia.
  rewrite take_app_length, drop_app_length, Hn.
  destruct (Z.ltb_spec (-1) (0 + Z.of_nat (length stem))); [done|lia].
Qed.

(** A name whose only dots are leading ones has no extension. *)
Lemma splitext_leading_dots (n : nat) (t : str) :
  sep ∉ t -> extsep ∉ t ->
  splitext (replicate n extsep ++ t) = (replicate n extsep ++ t, []).
Proof.
  intros Hs Hd. destruct n as [|n].
  { by apply splitext_no_dot. }
  rewrite replicate_S_end, <- app_assoc. cbn [app].
  unfold splitext, rfind.
  rewrite (rfind_from_last extsep) by done.
  rewrite (rfind_from_notin sep).
  2: { rewrite elem_of_app, elem_of_cons.
       intros [H%elem_of_replicate|[?|?]]; [by destruct H|done|done]. }
  unfold slice. rewrite drop_0.
  replace (Z.to_nat (0 + Z.of_nat (length (replicate n extsep)) - (-1 + 1)))
    with (length (replicate n extsep)) by lia.
  rewrite take_app_length.
  replace (existsb _ (replicate n extsep)) with false; [by rewrite andb_false_r|].
  clear. induction n as [|n IH]; [done|]. cbn. by rewrite <- IH.
Qed.

Lemma join_parts (a b : str) :
  join a b = if rooted b then b else with_sep a ++ b.
Proof.
  assert (E : match last a with
              | Some z => if z =? sep then a ++ b else a ++ sep :: b
              | None => b
              end = with_sep a ++ b).
  { unfold with_sep. destruct (last a) as [z|]; [|done].
    destruct (z =? sep); [done|]. by rewrite <- app_assoc. }
  unfold join, rooted. destruct b as [|c b]; [done|]. by destruct (c =? sep).
Qed.

(** The [_1] name never joins to the same path as the name itself. *)
Lemma join_suffixed_ne (out p : str) :
  join out ((splitext p).1 ++ py "_" ++ py "1" ++ (splitext p).2) ≠ join out p.
Proof.
  rewrite <- (splitext_app p) at 3.
  destruct (splitext p) as [base ext]. cbn [fst snd].
  rewrite !join_parts. change (py "_") with [95]. change (py "1") with [49].
  intros E. destruct base as [|c base].
  - cbn [app rooted] in E. change (95 =? sep) with false in E.
    destruct (rooted ext); apply (f_equal length) in E;
      rewrite ?length_app in E; cbn [length] in E; lia.
  - cbn [app rooted] in E.
    destruct (c =? sep); [|apply app_inv_head in E];
      apply (f_equal length) in E; cbn [length] in E;
      rewrite !length_app in E; cbn [length] in E; lia.
Qed.

End PathLemmas.
(** ** Discovery *)

Module DiscoveryFacts.
Import Env Main Os_path Discovery EnvFacts PathLemmas.

Section DiscoveryFacts.

Variable lower_other : str -> str.
Variable walk : str -> list (str * list str).
Variable listdir : str -> res (list str).

Lemma collect_app (file_paths : list str) (output_path : str) (acc : list File) :
  collect lower_other file_paths output_path acc =
  acc ++ (found lower_other output_path
            <$> List.filter (accepted lower_other) file_paths).
Proof.
  revert acc. induction file_paths as [|p rest IH]; intros acc.
  { by rewrite app_nil_r. }
  cbn [collect List.filter]. unfold accepted at 1.
  case_bool_decide; rewrite IH; [|done].
  by rewrite <- app_assoc.
Qed.

(** The listing reads; it changes nothing. *)
Lemma file_paths_world path recursive w r w' :
  file_paths walk listdir path recursive w = (r, w') -> w' = w.
Proof.
  unfold file_paths, ret, raise.
  destruct recursive; [by intros [= _ <-]|].
  destruct (listdir path); by intros [= _ <-].
Qed.

(** Discovery as a filter of the listing. *)
Lemma get_files_from_path_eq path recursive output_path w :
  get_files_from_path lower_other walk listdir path recursive output_path w =
  match file_paths walk listdir path recursive w with
  | (Val listed, _) =>
      (Val (found lower_other output_path
              <$> List.filter (accepted lower_other) listed), w)
  | (Exc e, _) => (Exc e, w)
  end.
Proof.
  unfold get_files_from_path, bind.
  destruct (file_paths _ _ _ _ w) as [[listed|e] w'] eqn:E;
    apply file_paths_world in E as ->; [|done].
  unfold ret. by rewrite collect_app.
Qed.

(** X1.  Discovery returns one [File] for each listed path whose
    lower-cased extension is [jpeg], [jpg] or [mp4], in the order of the
    listing, and nothing else; an exception of the listing is passed on;
    the world is left as it was. *)
Theorem get_files_from_path_filters path recursive output_path w :
  get_files_from_path lower_other walk listdir path recursive output_path w =
  match file_paths walk listdir path recursive w with
  | (Val listed, _) =>
      (Val (found lower_other output_path
              <$> List.filter (accepted lower_other) listed), w)
  | (Exc e, _) => (Exc e, w)
  end.
Proof. apply get_files_from_path_eq. Qed.

(** X2.  Every [File] discovery returns is named after the last
    component of its path, carries an allowed extension (the lower-cased
    one of its name), an empty [parsed_date] and no [exif_bytes]; its
    [new_file_path] is empty without an [output_path]; and without
    [recursive] its path is a regular file. *)
Theorem discovered_file_invariant path recursive output_path w files_list w' f :
  get_files_from_path lower_other walk listdir path recursive output_path w
  = (Val files_list, w') ->
  f ∈ files_list ->
  filename f = basename (file_path f)
  /\ extension f = extension_of lower_other (filename f)
  /\ extension f ∈ FILES_EXT
  /\ parsed_date f = Some []
  /\ exif_bytes f = NoBytes
  /\ new_file_path f = match output_path with
                       | [] => []
                       | _ => join output_path (filename f)
                       end
  /\ (if recursive then True else is_Some (files w !! file_path f)).
Proof.
  rewrite get_files_from_path_eq.
  destruct (file_paths _ _ _ _ w) as [[listed|e] w0] eqn:E; [|done].
  intros [= <- _] Hf.
  apply list_elem_of_fmap in Hf as (p & -> & Hp).
  apply list_elem_of_In, filter_In in Hp as [Hp Ha].
  unfold accepted in Ha. apply bool_decide_eq_true in Ha.
  repeat split; try done.
  destruct recursive; [done|]. cbn [found file_path].
  revert E. unfold file_paths. destruct (listdir path) as [names|]; [|done].
  intros [= <-]. apply list_elem_of_In in Hp.
  by apply list_elem_of_filter in Hp as [? _].
Qed.

Lemma ascii_lower_ascii (c : N) : ascii_lower c < 128 -> c < 128.
Proof. unfold ascii_lower. case_match; lia. Qed.

Lemma ascii_lower_ne (c k : N) : ascii_lower k = k -> ascii_lower c ≠ k -> c ≠ k.
Proof. by intros Hk Hc ->. Qed.

(** An ASCII image of [ascii_lower] has an ASCII source, which [lower]
    maps to it. *)
Lemma lower_ascii_image (e : str) :
  Forall (fun k => k < 128) (ascii_lower <$> e) ->
  lower lower_other e = ascii_lower <$> e.
Proof.
  intros H. unfold lower.
  replace (forallb (fun c => c <? 128) e) with true; [done|].
  symmetry. apply forallb_forall. intros c Hc. apply N.ltb_lt.
  apply ascii_lower_ascii.
  rewrite Forall_forall in H. apply H.
  apply list_elem_of_fmap. exists c. split; [done|]. by apply list_elem_of_In.
Qed.

Lemma allowed_extension_chars (t : str) :
  t ∈ FILES_EXT ->
  Forall (fun k => k < 128 /\ k ≠ sep /\ k ≠ extsep) t.
Proof.
  unfold FILES_EXT. rewrite !elem_of_cons, elem_of_nil.
  intros [-> | [-> | [-> | H] ] ]; [| | |done];
    repeat constructor; try done; unfold sep, extsep; lia.
Qed.

(** X3.  The test of the extension ignores the case of ASCII letters: a
    name [stem.e] in any directory is discovered whenever [e], with its
    capitals lowered, is [jpeg], [jpg] or [mp4], and the [File] gets the
    lowered extension. *)
Theorem capital_extension_discovered (root stem e output_path : str) :
  sep ∉ stem ->
  existsb (fun c => negb (c =? extsep)) stem = true ->
  ascii_lower <$> e ∈ FILES_EXT ->
  let p := join root (stem ++ extsep :: e) in
  accepted lower_other p = true
  /\ filename (found lower_other output_path p) = stem ++ extsep :: e
  /\ extension (found lower_other output_path p) = ascii_lower <$> e.
Proof.
  intros Hs Hn He p.
  pose proof (allowed_extension_chars _ He) as Hc.
  assert (Hin : forall k, (k = sep \/ k = extsep) -> k ∉ e).
  { intros k Hk Hke. rewrite Forall_forall in Hc.
    destruct (Hc (ascii_lower k)) as (_ & H1 & H2).
    { apply list_elem_of_fmap. eauto. }
    destruct Hk as [-> | ->]; [apply H1|apply H2]; reflexivity. }
  assert (Hb : basename p = stem ++ extsep :: e).
  { apply basename_join. rewrite elem_of_app, elem_of_cons.
    intros [?|[[=]|?]]; [done|]. by apply (Hin sep); [left|]. }
  assert (Hx : extension_of lower_other (stem ++ extsep :: e) = ascii_lower <$> e).
  { unfold extension_of. rewrite splitext_ext; [|done| |  |done];
      [|apply Hin; by left|apply Hin; by right]. cbn [snd drop].
    apply lower_ascii_image. eapply Forall_impl; [exact Hc|]. by intros k (?&_). }
  unfold accepted, found. cbn [filename extension]. rewrite Hb, Hx.
  by rewrite bool_decide_true.
Qed.

(** X4.  A name whose only dots are leading ones, such as [.jpg] or
    [jpg], is never discovered. *)
Theorem hidden_or_bare_name_rejected (root t : str) (n : nat) :
  sep ∉ t -> extsep ∉ t ->
  accepted lower_other (join root (replicate n extsep ++ t)) = false.
Proof.
  intros Hs Hd. unfold accepted, extension_of.
  rewrite basename_join.
  2: { rewrite elem_of_app. intros [H%elem_of_replicate|?]; [by destruct H|done]. }
  by rewrite splitext_leading_dots.
Qed.

End DiscoveryFacts.

(** Listing [in] of the example world, which holds a note besides. *)
Lemma discovered_file_invariant_witness :
  filename Examples.IMG = basename (file_path Examples.IMG)
  /\ extension Examples.IMG = extension_of (fun s => s) (filename Examples.IMG)
  /\ extension Examples.IMG ∈ FILES_EXT
  /\ parsed_date Examples.IMG = Some []
  /\ exif_bytes Examples.IMG = NoBytes
  /\ new_file_path Examples.IMG = []
  /\ is_Some (files Examples.fresh_world !! file_path Examples.IMG).
Proof.
  refine (discovered_file_invariant (fun s => s) (fun _ => [])
            (fun _ => Val [py "notes.txt"; py "IMG-20230615-WA0001.jpg"])
            (py "in") false [] Examples.fresh_world [Examples.IMG]
            Examples.fresh_world Examples.IMG _ _).
  - vm_compute. reflexivity.
  - apply list_elem_of_here.
Defined.

Lemma capital_extension_discovered_witness :
  let p := Os_path.join (py "in") (py "IMG-1" ++ Os_path.extsep :: py "JPG") in
  accepted (fun s => s) p = true
  /\ filename (found (fun s => s) (py "out") p) = py "IMG-1.JPG"
  /\ extension (found (fun s => s) (py "out") p) = py "jpg".
Proof.
  refine (capital_extension_discovered (fun s => s) (py "in") (py "IMG-1")
            (py "JPG") (py "out") _ _ _).
  - apply (proj1 (bool_decide_eq_false _)). vm_compute. reflexivity.
  - reflexivity.
  - apply (proj1 (bool_decide_eq_true _)). vm_compute. reflexivity.
Defined.

Lemma hidden_or_bare_name_rejected_witness :
  accepted (fun s => s) (Os_path.join (py "in") (py ".jpg")) = false.
Proof.
  refine (hidden_or_bare_name_rejected (fun s => s) (py "in") (py "jpg") 1 _ _).
  - apply (proj1 (bool_decide_eq_false _)). vm_compute. reflexivity.
  - apply (proj1 (bool_decide_eq_false _)). vm_compute. reflexivity.
Defined.

End DiscoveryFacts.
(** ** The Inspector, characterised *)

Module InspectorSpec.
Import Env Main Reference Dated EnvFacts TextFacts ReFacts Inspector.

Section InspectorSpec.

Variable Nd_other : N -> bool.

Lemma digit_prefix_digits (s : str) (n : nat) :
  (n <= digit_prefix Nd_other s)%nat -> digits Nd_other s 0 n = true.
Proof.
  revert s. induction n as [|n IH]; intros s H; [apply digits_0|].
  destruct s as [|c s]; [cbn in H; lia|].
  rewrite digits_S. cbn [digit_prefix] in H.
  destruct (is_digit Nd_other c); [|lia]. apply IH. lia.
Qed.

Lemma max_run_position (s : str) (n : nat) :
  (0 < n)%nat -> (n <= max_run Nd_other s)%nat ->
  exists i, (i < length s)%nat /\ (n <= digit_prefix Nd_other (drop i s))%nat.
Proof.
  intros Hn. induction s as [|c s IH]; cbn [max_run]; [lia|]. intros H.
  destruct (Nat.le_gt_cases n (digit_prefix Nd_other (c :: s))) as [Hc|Hc].
  - exists 0%nat. cbn [length]. rewrite drop_0. split; [lia|done].
  - destruct IH as (i & Hi & Hp); [lia|].
    exists (S i). cbn [length drop]. split; [lia|done].
Qed.

(** The date pattern matches exactly the strings with eight digits in a
    row. *)
Lemma search_date_iff (s : str) :
  is_Some (search Nd_other REGEX_FILENAME_DATE s) <-> (8 <= max_run Nd_other s)%nat.
Proof.
  split.
  - intros [gs H]. by eapply search_date_max_run.
  - intros H. apply max_run_position in H as (i & Hi & Hp); [|lia].
    apply digit_prefix_digits in Hp.
    rewrite search_date.
    destruct (first _ _) as [j|] eqn:E; [eauto|]. exfalso.
    unfold first in E. eapply find_none in E; [|apply in_seq; split; [lia|]; cbn; exact Hi].
    unfold date_at in E. rewrite digits_at in E. congruence.
Qed.

(** The loop of [check_exif] answers [True], with one record, when some
    value is [bytes] that decode to a text with eight digits in a row,
    and [False] without any effect otherwise; it never raises. *)
Lemma scan_tags_dated (d : ifd) (w : world) :
  scan_tags Nd_other d w =
  if existsb (dated_value Nd_other) d
  then (Val true, logged (LoggerInfo FoundExif) w)
  else (Val false, w).
Proof.
  induction d as [|[t v] d IH]; [done|].
  cbn [scan_tags existsb]. unfold dated_value at 1. cbn [snd].
  destruct v as [b|]; [|exact IH].
  destruct (decode b) as [s|]; [|exact IH].
  destruct (Nat.leb_spec 8 (max_run Nd_other s)) as [H|H].
  - apply search_date_iff in H as [gs ->]. done.
  - rewrite search_date_None by done. exact IH.
Qed.

(** [check_exif] by cases on what the file holds. *)
Lemma check_exif_eq (file : File) (w : world) :
  check_exif Nd_other file w =
  inspected Nd_other (file_path file) (files w !! file_path file) w.
Proof.
  unfold check_exif, export_exif_data, bind, read_image, inspected.
  destruct (files w !! file_path file) as [[px [|d|]|]|]; try done.
  - unfold piexif_load_Exif, ret. rewrite <- scan_tags_dated. by destruct d.
  - by case_bool_decide.
Qed.

(** X5.  [check_exif] as a function of what stands at [file.file_path]:
    no file or a directory, a file PIL does not identify and EXIF bytes
    [piexif] cannot load raise; an image without EXIF gives [False]; an
    image with EXIF gives [True] exactly when one of the values of its
    Exif IFD is [bytes] that decode as UTF-8 to a text with eight digits
    in a row, and then the only effect is the record [Found exif
    data]. *)
Theorem check_exif_inspected (file : File) (w : world) :
  check_exif Nd_other file w =
  inspected Nd_other (file_path file) (files w !! file_path file) w.
Proof. apply check_exif_eq. Qed.

End InspectorSpec.
End InspectorSpec.
(** ** The format [YYYY:MM:DD HH:MM:SS] *)

Module FormatFacts.
Import Env Main Reference Dated EnvFacts TextFacts ReFacts Inspector InspectorSpec.

Section FormatFacts.

Variable Nd_other : N -> bool.

Arguments is_digit : simpl never.

Lemma digits_group (s : str) (k n : nat) :
  digits Nd_other s k n = true <-> digit_group Nd_other n (sub s k n).
Proof.
  unfold digits, digit_group. rewrite andb_true_iff, Nat.eqb_eq. done.
Qed.

Ltac open_group H :=
  let Hlen := fresh "Hlen" in
  destruct H as [Hlen H];
  repeat match type of Hlen with
  | context [length ?l] =>
      is_var l; destruct l as [|? l]; cbn [length] in Hlen; try lia
  end;
  clear Hlen; cbn [forallb] in H; rewrite ?andb_true_iff in H.

(** Six groups of four, two, two, two, two and two digits make a text of
    the format. *)
Lemma exif_datetime_laid_out (y m d h mi sec : str) :
  digit_group Nd_other 4 y -> digit_group Nd_other 2 m ->
  digit_group Nd_other 2 d -> digit_group Nd_other 2 h ->
  digit_group Nd_other 2 mi -> digit_group Nd_other 2 sec ->
  exif_datetime Nd_other (laid_out y m d h mi sec) = true.
Proof.
  intros Hy Hm Hd Hh Hmi Hs.
  open_group Hy. open_group Hm. open_group Hd. open_group Hh.
  open_group Hmi. open_group Hs.
  unfold exif_datetime, laid_out, digits, literal, sub. cbn.
  repeat match goal with H : _ /\ _ |- _ => destruct H end.
  repeat match goal with H : is_digit _ _ = true |- _ => rewrite H; clear H end.
  reflexivity.
Qed.

(** A text of the format is six such groups. *)
Lemma exif_datetime_groups (s : str) :
  exif_datetime Nd_other s = true ->
  exists y m d h mi sec,
    s = laid_out y m d h mi sec
    /\ digit_group Nd_other 4 y /\ digit_group Nd_other 2 m
    /\ digit_group Nd_other 2 d /\ digit_group Nd_other 2 h
    /\ digit_group Nd_other 2 mi /\ digit_group Nd_other 2 sec.
Proof.
  unfold exif_datetime. rewrite !andb_true_iff, Nat.eqb_eq.
  intros [[[[[[[[[[[Hl H1] L1] H2] L2] H3] L3] H4] L4] H5] L5] H6].
  do 19 (destruct s as [|? s]; [discriminate Hl|]).
  destruct s; [|discriminate Hl]. clear Hl.
  unfold literal in *. cbn in L1, L2, L3, L4, L5.
  rewrite andb_true_r in L1, L2, L3, L4, L5.
  apply N.eqb_eq in L1, L2, L3, L4, L5. subst.
  apply digits_group in H1, H2, H3, H4, H5, H6.
  unfold sub in *. cbn [take drop] in *.
  eexists _, _, _, _, _, _.
  split; [|split; [exact H1|split; [exact H2|split; [exact H3|split;
    [exact H4|split; [exact H5|exact H6]]]]]]. reflexivity.
Qed.

Lemma digit_group_max_run (n : nat) (l : str) :
  digit_group Nd_other n l -> (max_run Nd_other l <= n)%nat.
Proof. intros [<- _]. apply max_run_le_length. Qed.

(** A text of the format has no more than four digits in a row. *)
Lemma exif_datetime_max_run (s : str) :
  exif_datetime Nd_other s = true -> (max_run Nd_other s <= 4)%nat.
Proof.
  intros (y & m & d & h & mi & sec & -> & Hy & Hm & Hd & Hh & Hmi & Hs)
    %exif_datetime_groups.
  unfold laid_out. change (py ":") with [58]. change (py " ") with [32].
  cbn [app]. rewrite !max_run_app_sep by reflexivity.
  apply digit_group_max_run in Hy, Hm, Hd, Hh, Hmi, Hs. lia.
Qed.

Lemma is_digit_scalar (c : N) : is_digit Nd_other c = true -> scalar c = true.
Proof.
  intros H. unfold is_digit in H. apply orb_true_iff in H as [H|H].
  - unfold ascii_digit in H. apply andb_true_iff in H as [H1 H2].
    apply N.leb_le in H1, H2. unfold scalar, surrogate.
    apply andb_true_iff. split; [apply N.ltb_lt; lia|].
    apply negb_true_iff, andb_false_iff. left. apply N.leb_gt. lia.
  - apply andb_true_iff in H as [H _]. by apply andb_true_iff in H as [_ H].
Qed.

Lemma digit_group_scalar (n : nat) (l : str) :
  digit_group Nd_other n l -> Forall (fun c => scalar c = true) l.
Proof.
  intros [_ H]. apply Forall_forall. intros c Hc.
  apply is_digit_scalar. rewrite forallb_forall in H. apply H.
  by apply list_elem_of_In.
Qed.

(** A text of the format is made of characters UTF-8 can carry. *)
Lemma exif_datetime_scalar (s : str) :
  exif_datetime Nd_other s = true -> Forall (fun c => scalar c = true) s.
Proof.
  intros (y & m & d & h & mi & sec & -> & Hy & Hm & Hd & Hh & Hmi & Hs)
    %exif_datetime_groups.
  apply digit_group_scalar in Hy, Hm, Hd, Hh, Hmi, Hs.
  unfold laid_out. change (py ":") with [58]. change (py " ") with [32].
  rewrite !Forall_app, !Forall_singleton. repeat split; done.
Qed.

(** The two outcomes of the parser. *)
Lemma parse_filename_to_date_cases (file : File) (w : world) :
  (parse_filename_to_date Nd_other file w).1 = Val file
  \/ exists d,
       (parse_filename_to_date Nd_other file w).1
       = Val (set_parsed_date (Some d) file)
       /\ exif_datetime Nd_other d = true.
Proof.
  rewrite Parser.parse_filename_to_date_eq.
  unfold reference_parser, reference_time.
  destruct (first (date_at _ _) _) as [i|] eqn:Ei; [|by left].
  right. eexists. split; [done|].
  apply first_least in Ei as (_ & Ei & _). unfold date_at in Ei.
  change 8%nat with (4 + (2 + 2))%nat in Ei.
  rewrite !digits_add, !andb_true_iff, <- Nat.add_assoc in Ei.
  destruct Ei as (Hy & Hm & Hd). cbn [Nat.add] in Hd.
  apply digits_group in Hy, Hm, Hd.
  destruct (first (time_at _ _) _) as [j|] eqn:Ej.
  - apply first_least in Ej as (_ & Ej & _). unfold time_at in Ej.
    rewrite !andb_true_iff in Ej.
    destruct Ej as (((((_ & Hh) & _) & Hmi) & _) & Hs).
    apply digits_group in Hh, Hmi, Hs.
    by apply (exif_datetime_laid_out _ _ _ _ _ _ Hy Hm Hd Hh Hmi Hs).
  - apply (exif_datetime_laid_out _ _ _ (py "00") (py "00") (py "00") Hy Hm Hd);
      by split.
Qed.

(** X6.  Whenever the parser sets [parsed_date], the value has the form
    [YYYY:MM:DD HH:MM:SS], nineteen characters with digits in the six
    groups; otherwise it returns the file as it was. *)
Theorem parse_filename_to_date_format (file : File) (w : world) :
  (parse_filename_to_date Nd_other file w).1 = Val file
  \/ exists d,
       (parse_filename_to_date Nd_other file w).1
       = Val (set_parsed_date (Some d) file)
       /\ exif_datetime Nd_other d = true.
Proof. apply parse_filename_to_date_cases. Qed.

(** X7.  A photo whose Exif values are dates in the EXIF format
    [YYYY:MM:DD HH:MM:SS], as cameras write them, is reported as having
    no date: [check_exif] answers [False] and does nothing. *)
Theorem check_exif_misses_exif_dates (file : File) (w : world) px (d : ifd) :
  files w !! file_path file = Some (Picture px (Block d)) ->
  (forall t b, (t, BytesV b) ∈ d ->
     exists s, decode b = Some s /\ exif_datetime Nd_other s = true) ->
  check_exif Nd_other file w = (Val false, w).
Proof.
  intros Hf Hd. rewrite check_exif_eq, Hf. cbn.
  replace (existsb (dated_value Nd_other) d) with false; [done|].
  symmetry. apply not_true_is_false. intros H.
  apply existsb_exists in H as ([t v] & Hin & Hv).
  unfold dated_value in Hv. cbn [snd] in Hv.
  destruct v as [b|]; [|done].
  destruct (Hd t b) as (s & Hs & Hfmt); [by apply list_elem_of_In|].
  rewrite Hs in Hv. apply Nat.leb_le in Hv.
  apply exif_datetime_max_run in Hfmt. lia.
Qed.

End FormatFacts.

(** A photo with the two dates a camera writes. *)
Lemma check_exif_misses_exif_dates_witness :
  let camera :=
    [(DateTimeOriginal, BytesV (Examples.ascii_bytes "2023:06:15 12:30:45"));
     (DateTimeDigitized, BytesV (Examples.ascii_bytes "2023:06:15 12:30:45"))] in
  let w := World {[ py "in/IMG-20230615-WA0001.jpg" := Picture 7 (Block camera) ]}
                 {[ py "in" ]} Examples.permitted ∅ 0 [] in
  check_exif Examples.Nd_ascii Examples.IMG w = (Val false, w).
Proof.
  cbv zeta.
  refine (check_exif_misses_exif_dates Examples.Nd_ascii Examples.IMG _ 7 _ _ _).
  - vm_compute. reflexivity.
  - intros t b Hin. exists (py "2023:06:15 12:30:45").
    apply elem_of_cons in Hin as [[= _ ->]|Hin]; [by vm_compute|].
    apply elem_of_cons in Hin as [[= _ ->]|Hin]; [by vm_compute|].
    by apply elem_of_nil in Hin.
Defined.

End FormatFacts.
(** ** The Synthesizer, characterised *)

Module SynthesizerSpec.
Import Env Main Reference Dated EnvFacts TextFacts FormatFacts.

Lemma suffix_scalar : Forall (fun c => scalar c = true) (py " 00:00:00").
Proof. repeat constructor. Qed.

(** The two outcomes of the synthesizer. *)
Lemma new_image_exif_data_cases (file : File) (w : world) :
  let date_time := fmt (parsed_date file) ++ py " 00:00:00" in
  match new_image_exif_data file w with
  | (Val (file', block), w') =>
      exists b,
        decode b = Some date_time
        /\ block = Block [(DateTimeOriginal, BytesV b);
                          (DateTimeDigitized, BytesV b)]
        /\ file' = set_exif_bytes block file
        /\ w' = logged (LoggerInfo (NewExif [(DateTimeOriginal, BytesV b);
                                             (DateTimeDigitized, BytesV b)])) w
  | (Exc e, w') =>
      e = UnicodeEncodeError /\ w' = w
      /\ ~ Forall (fun c => scalar c = true) (fmt (parsed_date file))
  end.
Proof.
  cbv zeta. unfold new_image_exif_data.
  destruct (encode _) as [b|] eqn:E.
  - unfold bind, emit, ret. exists b. by apply decode_encode in E.
  - unfold raise. repeat split. intros H.
    assert (S : Forall (fun c => scalar c = true)
                  (fmt (parsed_date file) ++ py " 00:00:00"))
      by (apply Forall_app; split; [done|apply suffix_scalar]).
    apply encode_scalar in S as [b S]. congruence.
Qed.

(** X8.  [new_image_exif_data] either raises [UnicodeEncodeError],
    changing nothing, which takes a character of [parsed_date] that UTF-8
    cannot carry; or it logs the dictionary and returns the file with
    [exif_bytes] set to a block of the two tags, both with the same
    bytes, which decode back to [parsed_date] followed by [ 00:00:00]. *)
Theorem new_image_exif_data_result (file : File) (w : world) :
  let date_time := fmt (parsed_date file) ++ py " 00:00:00" in
  match new_image_exif_data file w with
  | (Val (file', block), w') =>
      exists b,
        decode b = Some date_time
        /\ block = Block [(DateTimeOriginal, BytesV b);
                          (DateTimeDigitized, BytesV b)]
        /\ file' = set_exif_bytes block file
        /\ w' = logged (LoggerInfo (NewExif [(DateTimeOriginal, BytesV b);
                                             (DateTimeDigitized, BytesV b)])) w
  | (Exc e, w') =>
      e = UnicodeEncodeError /\ w' = w
      /\ ~ Forall (fun c => scalar c = true) (fmt (parsed_date file))
  end.
Proof. apply new_image_exif_data_cases. Qed.

Section SynthesizerSpec.

Variable Nd_other : N -> bool.

(** X9.  After the parser the synthesizer does not raise: for a file
    whose [parsed_date] is encodable to begin with (the empty one of
    discovery is), the two stages in sequence return a file and its
    block. *)
Theorem parsed_file_is_synthesized (file : File) (w : world) :
  Forall (fun c => scalar c = true) (fmt (parsed_date file)) ->
  exists file' d,
    ((let* parsed := parse_filename_to_date Nd_other file in
      new_image_exif_data parsed) w).1 = Val (file', Block d)
    /\ exif_bytes file' = Block d
    /\ filename file' = filename file /\ file_path file' = file_path file.
Proof.
  intros Hs. unfold bind.
  destruct (parse_filename_to_date Nd_other file w) as [r w1] eqn:Ep.
  assert (exists parsed, r = Val parsed
            /\ Forall (fun c => scalar c = true) (fmt (parsed_date parsed))
            /\ filename parsed = filename file
            /\ file_path parsed = file_path file) as (parsed & -> & Hp & Hn & Hq).
  { destruct (parse_filename_to_date_cases Nd_other file w) as [H|(d & H & Hd)];
      rewrite Ep in H; cbn [fst] in H; subst r; eexists; (split; [done|]).
    - done.
    - split; [|done]. by apply exif_datetime_scalar in Hd. }
  pose proof (new_image_exif_data_cases parsed w1) as R. cbv zeta in R.
  destruct (new_image_exif_data parsed w1) as [[[file' block]|e] w2].
  - destruct R as (b & _ & -> & -> & _). eexists _, _. cbn. done.
  - by destruct R as (_ & _ & []).
Qed.

End SynthesizerSpec.

Lemma parsed_file_is_synthesized_witness :
  exists file' d,
    ((let* parsed := parse_filename_to_date Examples.Nd_ascii Examples.IMG in
      new_image_exif_data parsed) Examples.fresh_world).1 = Val (file', Block d)
    /\ exif_bytes file' = Block d
    /\ filename file' = filename Examples.IMG
    /\ file_path file' = file_path Examples.IMG.
Proof.
  refine (parsed_file_is_synthesized Examples.Nd_ascii Examples.IMG
            Examples.fresh_world _).
  constructor.
Defined.

End SynthesizerSpec.
(** ** [save_exif_data]: what it touches *)

Module ResolverSpec.
Import Env Main Stages Dated EnvFacts Growth Inspector Resolver PathLemmas
  InspectorSpec.

Section ResolverSpec.

Variable Nd_other : N -> bool.

Lemma save_files img p b w r w2 :
  save img p b w = (r, w2) ->
  files w2 = files w \/ files w2 = <[p := Picture (pixels_of img) b]> (files w).
Proof.
  unfold save. repeat case_match; intros ?; simplify_eq; eauto.
Qed.

(** The Inspector opens and closes no image of the program. *)
Lemma check_exif_live file w r w' :
  check_exif Nd_other file w = (r, w') -> live w' = live w /\ fresh w' = fresh w.
Proof.
  rewrite check_exif_eq. unfold inspected.
  repeat case_match; intros ?; simplify_eq; done.
Qed.

(** X10.  [save_exif_data] changes no path but the naive destination and
    the path it saves to, whatever happens. *)
Theorem save_exif_data_frame file img output_path overwrite keep w q :
  q ≠ naive file output_path ->
  q ≠ target file output_path keep ->
  files (save_exif_data Nd_other file img output_path overwrite keep w).2 !! q
  = files w !! q.
Proof.
  intros Hn Ht. rewrite save_exif_data_stages. unfold bind at 1.
  destruct (resolve _ _ _ w) as [[go|e] w1] eqn:Er.
  2: { cbn [snd]. destruct (resolve_files _ _ _ _ _ _ Er) as [->| ->];
         [done|by rewrite lookup_delete_ne]. }
  assert (E1 : files w1 !! q = files w !! q).
  { destruct (resolve_files _ _ _ _ _ _ Er) as [->| ->];
      [done|by rewrite lookup_delete_ne]. }
  destruct go; [|done]. unfold bind.
  destruct (save _ _ _ w1) as [[[]|e] w2] eqn:Es.
  - destruct (verify _ _ _ w2) as [rv w3] eqn:Ev. cbn [snd].
    apply verify_store in Ev as (-> & _).
    destruct (save_files _ _ _ _ _ _ Es) as [->| ->]; [done|].
    by rewrite lookup_insert_ne.
  - cbn [snd]. destruct (save_files _ _ _ _ _ _ Es) as [->| ->]; [done|].
    by rewrite lookup_insert_ne.
Qed.

(** The [_1] path is never the naive destination. *)
Lemma disambiguated_ne_naive file output_path :
  disambiguated file output_path ≠ naive file output_path.
Proof.
  unfold disambiguated, naive.
  pose proof (join_suffixed_ne output_path (filename file)) as H.
  by destruct (Os_path.splitext (filename file)).
Qed.

(** When the policy lets the write go on, no file stands at the naive
    destination. *)
Lemma resolve_true_naive file output_path overwrite w w1 :
  resolve file output_path overwrite w = (Val true, w1) ->
  files w1 !! naive file output_path = None.
Proof.
  unfold resolve, bind, exists_, remove, ret.
  destruct (makedirs output_path w) as [[[]|e] w0] eqn:Em; [|done].
  destruct (files w0 !! naive file output_path) as [c|] eqn:Ef;
    cbv beta; rewrite ?Ef;
    repeat first [case_bool_decide | case_match];
    intros ?; simplify_eq; cbn; rewrite ?lookup_delete_eq; try done;
    try congruence.
  all: exfalso; match goal with H : ¬ is_Some (Some _) |- _ => apply H; eauto end.
Qed.

(** X11.  Without [keep_original_path], when the policy lets the write
    go on and the save succeeds, the image is written at the [_1] path,
    replacing whatever stood there, whether or not [overwrite] is set;
    nothing stands at the naive destination afterwards; the [_1] path is
    the one recorded. *)
Theorem copy_goes_to_suffixed_path file img output_path overwrite w w1 w2 :
  resolve file output_path overwrite w = (Val true, w1) ->
  save img (disambiguated file output_path) (exif_bytes file) w1 = (Val tt, w2) ->
  let r := save_exif_data Nd_other file img output_path overwrite false w in
  files r.2 !! disambiguated file output_path
    = Some (Picture (pixels_of img) (exif_bytes file))
  /\ files r.2 !! naive file output_path = None
  /\ (exists rest,
        out r.2 = out w ++ LoggerInfo (Saved (disambiguated file output_path))
                  :: rest)
  /\ handle img ∉ live r.2.
Proof.
  intros Hr Hs r.
  assert (Hw : files r.2 =
    <[disambiguated file output_path := Picture (pixels_of img) (exif_bytes file)]>
      (files w1)).
  { subst r. by erewrite (save_exif_data_written _ _ _ _ _ false). }
  split; [by rewrite Hw, lookup_insert_eq|].
  split.
  { rewrite Hw, lookup_insert_ne by apply disambiguated_ne_naive.
    by eapply resolve_true_naive. }
  subst r. rewrite save_exif_data_stages, (bind_val _ _ _ _ _ Hr).
  cbn iota. unfold target, written. rewrite (bind_val _ _ _ _ _ Hs).
  destruct (verify _ _ _ w2) as [rv w3] eqn:Ev. cbn [snd].
  split.
  - apply verify_out in Ev as [Ev _]. cbn [new_file_path set_new_file_path] in Ev.
    destruct (resolve_out _ _ _ _ _ _ Hr) as (<- & _).
    revert Hs Ev. unfold save. repeat case_match; intros ?; simplify_eq. done.
  - revert Ev. unfold verify, bind, close, emit.
    destruct (check_exif _ _ _) as [[[]|e] w4] eqn:Ec; unfold ret, raise;
      intros ?; simplify_eq;
      apply check_exif_live in Ec as [Ec _]; rewrite Ec; cbn;
      rewrite elem_of_difference, elem_of_singleton; by intros [_ ?].
Qed.

(** X12.  When the output directory cannot be ensured, because the path
    is empty, or it is not a directory and a regular file stands there or
    permission is denied, [save_exif_data] raises and does nothing
    else: no file is removed or written, nothing is recorded and the
    image stays open. *)
Theorem output_directory_failure_stops file img output_path overwrite keep w :
  output_path = []
  \/ ((output_path ∉ dirs w)
      /\ (is_Some (files w !! output_path) \/ denied w output_path = true)) ->
  exists e,
    save_exif_data Nd_other file img output_path overwrite keep w = (Exc e, w).
Proof.
  intros H.
  assert (Hm : exists e, makedirs output_path w = (Exc e, w)).
  { unfold makedirs. destruct H as [-> | [Hd H]]; [by eauto|].
    destruct output_path as [|c p]; [by eauto|].
    rewrite (bool_decide_eq_false_2 _ Hd).
    case_bool_decide as Hf; [by eauto|].
    destruct H as [H | ->]; [done|by eauto]. }
  destruct Hm as [e Hm]. exists e.
  by eapply save_exif_data_makedirs_first.
Qed.

End ResolverSpec.

(** The other picture of the input directory, while [IMG] is copied over
    a file at its naive destination. *)
Lemma save_exif_data_frame_witness :
  files (save_exif_data Examples.Nd_ascii Examples.IMG_stamped Examples.opened
           (py "out") true false Examples.taken_world_open).2
    !! py "in/photo.jpg"
  = files Examples.taken_world_open !! py "in/photo.jpg".
Proof.
  refine (save_exif_data_frame Examples.Nd_ascii Examples.IMG_stamped
            Examples.opened (py "out") true false Examples.taken_world_open
            (py "in/photo.jpg") _ _).
  - intros H. vm_compute in H. discriminate H.
  - intros H. vm_compute in H. discriminate H.
Defined.

(** A second run without [overwrite]: the copy of the first run at the
    [_1] path is replaced. *)
Lemma copy_goes_to_suffixed_path_witness :
  let r := save_exif_data Examples.Nd_ascii Examples.IMG_stamped Examples.opened
             (py "out") false false Examples2.second_run_world_open in
  files Examples2.second_run_world_open
    !! disambiguated Examples.IMG_stamped (py "out") = Some (Picture 9 NoBytes)
  /\ (files r.2 !! disambiguated Examples.IMG_stamped (py "out")
        = Some (Picture 7 Examples.stamp)
      /\ files r.2 !! naive Examples.IMG_stamped (py "out") = None
      /\ (exists rest,
            out r.2 = out Examples2.second_run_world_open
                      ++ LoggerInfo (Saved (disambiguated Examples.IMG_stamped
                                                           (py "out"))) :: rest)
      /\ handle Examples.opened ∉ live r.2).
Proof.
  split; [vm_compute; reflexivity|].
  eapply (copy_goes_to_suffixed_path Examples.Nd_ascii Examples.IMG_stamped
            Examples.opened (py "out") false Examples2.second_run_world_open).
  - vm_compute. reflexivity.
  - vm_compute. reflexivity.
Defined.

(** The output path names a picture of the input directory. *)
Lemma output_directory_failure_stops_witness :
  exists e,
    save_exif_data Examples.Nd_ascii Examples.IMG_stamped Examples.opened
                   (py "in/photo.jpg") false false Examples.taken_world_open
    = (Exc e, Examples.taken_world_open).
Proof.
  refine (output_directory_failure_stops Examples.Nd_ascii Examples.IMG_stamped
            Examples.opened (py "in/photo.jpg") false false
            Examples.taken_world_open _).
  right. split.
  - apply (bool_decide_eq_false_1 (py "in/photo.jpg"
                                   ∈ dirs Examples.taken_world_open)).
    vm_compute. reflexivity.
  - left. apply (bool_decide_eq_true_1 (is_Some (files Examples.taken_world_open
                                          !! py "in/photo.jpg"))).
    vm_compute. reflexivity.
Defined.

End ResolverSpec.
(** ** [process_file]: its ways out *)

Module PipelineSpec.
Import Env Main Reference Stages Dated EnvFacts Growth Inspector Resolver
  PathLemmas InspectorSpec ResolverSpec Pipeline.

Section PipelineSpec.

Variable Nd_other : N -> bool.

(** X13.  When what stands at [file.file_path] is not an image PIL
    identifies (a video, a missing file, a directory), [process_file]
    raises at once and leaves the world as it was. *)
Theorem unidentified_file_is_left_alone file args w :
  (forall px ex, files w !! file_path file ≠ Some (Picture px ex)) ->
  exists e, process_file Nd_other file args w = (Exc e, w).
Proof.
  intros H. unfold process_file, bind at 1, Image_open, bind, read_image.
  destruct (files w !! file_path file) as [[px ex|]|] eqn:E.
  - by destruct (H px ex).
  - eauto.
  - case_bool_decide; eauto.
Qed.

(** X14.  When the Inspector finds a date in the file, [process_file]
    skips it: it returns normally having written the records [Found exif
    data] and [Skipping file: '<filename>'], changes no file and no
    directory, and leaves the image it opened open. *)
Theorem dated_file_is_skipped file args w px d :
  files w !! file_path file = Some (Picture px (Block d)) ->
  existsb (dated_value Nd_other) d = true ->
  exists w',
    process_file Nd_other file args w = (Val tt, w')
    /\ files w' = files w /\ dirs w' = dirs w
    /\ out w' = out w ++ [LoggerInfo FoundExif;
                          SpinnerInfo (py "Skipping file: '" ++ filename file
                                       ++ py "'")]
    /\ live w' = {[fresh w]} ∪ live w.
Proof.
  intros Hf Hd. unfold process_file, bind at 1, Image_open, bind at 1, read_image.
  rewrite Hf. unfold bind at 1. rewrite check_exif_eq. cbn [files].
  rewrite Hf. unfold inspected. rewrite Hd.
  unfold emit. eexists. split; [done|]. cbn.
  repeat split. by rewrite <- app_assoc.
Qed.

Lemma save_exif_data_none_live file img output_path overwrite keep w w' :
  save_exif_data Nd_other file img output_path overwrite keep w = (Val None, w') ->
  live w' = live w.
Proof.
  rewrite save_exif_data_stages. unfold bind at 1.
  destruct (resolve _ _ _ w) as [[go|e] w1] eqn:Er; [|done].
  destruct go.
  - unfold bind. destruct (save _ _ _ w1) as [[[]|e] w2]; [|done].
    unfold verify, bind, close, emit.
    by destruct (check_exif _ _ _) as [[[]|e] w3].
  - intros [= <-]. by apply resolve_out in Er as (_ & ? & _).
Qed.

(** X15.  [process_file] returns normally only when it has skipped the
    file: then no file has changed and the image it opened is still open.
    Every run that writes a file ends in an exception. *)
Theorem normal_return_means_skipped file args w w' :
  (max_run Nd_other (fmt (parsed_date file)) < 8)%nat ->
  process_file Nd_other file args w = (Val tt, w') ->
  files w' = files w /\ fresh w ∈ live w'.
Proof.
  intros Hrun Hp. split; [by eapply process_file_returns|].
  revert Hp. unfold process_file. unfold bind at 1.
  destruct (Image_open _ w) as [[im|e] w1] eqn:Eo; [|done].
  assert (Hl : fresh w ∈ live w1).
  { revert Eo. unfold Image_open, bind, read_image.
    repeat case_match; intros ?; simplify_eq. cbn.
    apply elem_of_union_l. by apply elem_of_singleton. }
  apply Image_open_val in Eo as ((Ef1 & _) & _ & [c Hc]).
  unfold bind at 1.
  destruct (check_exif _ file w1) as [[has|e] w2] eqn:Ec; [|done].
  pose proof (check_exif_store _ _ _ _ _ Ec) as (Ef2 & _).
  pose proof (check_exif_live _ _ _ _ _ Ec) as [El2 _]. rewrite <- El2 in Hl.
  destruct has.
  { unfold emit. by intros [= <-]. }
  unfold bind at 1. rewrite Parser.parse_filename_to_date_eq.
  destruct (reference_parser Nd_other (filename file)) as [pd|] eqn:Ed.
  - (* a date was found *)
    cbn [parsed_date set_parsed_date]. unfold bind at 1.
    set (file2 := set_parsed_date (Some pd) file).
    set (w3 := logged (LoggerInfo (ParsedDate (Some pd))) w2).
    destruct (new_image_exif_data file2 w3) as [[[file3 blk]|e] w4] eqn:En; [|done].
    assert (Hrun2 : (max_run Nd_other (fmt (parsed_date file2)) < 8)%nat).
    { apply reference_parser_max_run in Ed. cbn. lia. }
    destruct (synthesized_block_has_no_date _ _ _ _ _ _ Hrun2 En)
      as (d & -> & Hd & Hscan).
    assert (E4 : files w4 = files w3 /\ live w4 = live w3
                 /\ file_path file3 = file_path file).
    { revert En. unfold new_image_exif_data, bind, emit, ret, raise.
      destruct (encode _); intros ?; simplify_eq. done. }
    destruct E4 as (Ef4 & El4 & Hp3).
    unfold bind at 1.
    destruct (save_exif_data _ _ _ _ _ _ w4) as [[r|e] w5] eqn:Es; [|done].
    pose proof Es as Es'.
    apply save_exif_data_returns with (d := d) in Es as [-> _]; [|done|done|].
    + apply save_exif_data_none_live in Es'.
      unfold bind, emit. intros [= <-]. cbn. by rewrite Es', El4.
    + intros c4 Hc4.
      assert (Hc1 : files w1 !! file_path file = Some c4).
      { rewrite <- Ef2. change (files w2) with (files w3).
        by rewrite <- Ef4, <- Hp3. }
      rewrite <- (check_exif_content Nd_other file file3 w1 w4 c4);
        [by rewrite Ec|done|done|]. by rewrite <- Hp3.
  - (* no date in the name *)
    destruct (parsed_date file) as [pd|] eqn:Epd; [|by intros [= <-]].
    rewrite <- Epd in Hrun. unfold bind at 1.
    destruct (new_image_exif_data file w2) as [[[file3 blk]|e] w4] eqn:En; [|done].
    destruct (synthesized_block_has_no_date _ _ _ _ _ _ Hrun En)
      as (d & -> & Hd & Hscan).
    assert (E4 : files w4 = files w2 /\ live w4 = live w2
                 /\ file_path file3 = file_path file).
    { revert En. unfold new_image_exif_data, bind, emit, ret, raise.
      destruct (encode _); intros ?; simplify_eq. done. }
    destruct E4 as (Ef4 & El4 & Hp3).
    unfold bind at 1.
    destruct (save_exif_data _ _ _ _ _ _ w4) as [[r|e] w5] eqn:Es; [|done].
    pose proof Es as Es'.
    apply save_exif_data_returns with (d := d) in Es as [-> _]; [|done|done|].
    + apply save_exif_data_none_live in Es'.
      unfold bind, emit. intros [= <-]. cbn. by rewrite Es', El4.
    + intros c4 Hc4.
      assert (Hc1 : files w1 !! file_path file = Some c4).
      { by rewrite <- Ef2, <- Ef4, <- Hp3. }
      rewrite <- (check_exif_content Nd_other file file3 w1 w4 c4);
        [by rewrite Ec|done|done|]. by rewrite <- Hp3.
Qed.

End PipelineSpec.

(** A video of the input directory. *)
Lemma unidentified_file_is_left_alone_witness :
  exists e,
    process_file Examples.Nd_ascii Examples2.VID (Examples.args false false)
                 Examples2.video_world
    = (Exc e, Examples2.video_world).
Proof.
  refine (unidentified_file_is_left_alone Examples.Nd_ascii Examples2.VID
            (Examples.args false false) Examples2.video_world _).
  intros px ex H. vm_compute in H. discriminate H.
Defined.

(** The picture with a dated user comment. *)
Lemma dated_file_is_skipped_witness :
  exists w',
    process_file Examples.Nd_ascii Examples.dated (Examples.args false false)
                 Examples.fresh_world = (Val tt, w')
    /\ files w' = files Examples.fresh_world
    /\ dirs w' = dirs Examples.fresh_world
    /\ out w' = out Examples.fresh_world
                ++ [LoggerInfo FoundExif;
                    SpinnerInfo (py "Skipping file: '" ++ filename Examples.dated
                                 ++ py "'")]
    /\ live w' = {[fresh Examples.fresh_world]} ∪ live Examples.fresh_world.
Proof.
  eapply (dated_file_is_skipped Examples.Nd_ascii Examples.dated
            (Examples.args false false) Examples.fresh_world).
  - vm_compute. reflexivity.
  - vm_compute. reflexivity.
Defined.

(** [IMG] with a file at its naive destination and no [overwrite]: the
    write is aborted and [process_file] returns. *)
Lemma normal_return_means_skipped_witness :
  let w' := (process_file Examples.Nd_ascii Examples.IMG
               (Examples.args false false) Examples.taken_world).2 in
  files w' = files Examples.taken_world
  /\ fresh Examples.taken_world ∈ live w'.
Proof.
  refine (normal_return_means_skipped Examples.Nd_ascii Examples.IMG
            (Examples.args false false) Examples.taken_world _ _ _).
  - vm_compute. lia.
  - vm_compute. reflexivity.
Defined.

End PipelineSpec.
(** ** The batch *)

Module BatchSpec.
Import Env Main Reference Stages Discovery EnvFacts Growth Pipeline Batch
  DiscoveryFacts.

Section BatchSpec.

Variable Nd_other : N -> bool.
Variable lib_text : exn -> str.

(** X16.  The loop reaches every file of the list: the status text
    [Processing: <file_path>] of each is in the output, whatever happened
    to the files before it. *)
Theorem every_file_gets_its_turn files_list args w file :
  file ∈ files_list ->
  SpinnerText (py "Processing: " ++ file_path file)
  ∈ out (for_files Nd_other lib_text files_list args w).2.
Proof. apply every_file_is_announced. Qed.

(** X17.  One turn of the loop either leaves all files as they were or
    ends with the record of an error: a file that is stamped is always
    reported as [An error occurred: ...]. *)
Theorem stamped_file_is_reported file args w :
  (max_run Nd_other (fmt (parsed_date file)) < 8)%nat ->
  let w' := after_file Nd_other lib_text args w file in
  files w' = files w
  \/ exists e, last (out w')
               = Some (SpinnerInfo (py "An error occurred: " ++ exn_text lib_text e)).
Proof.
  intros Hrun. cbv zeta. unfold after_file.
  destruct (process_file _ _ _ _) as [[[]|e] w1] eqn:E.
  - left. by apply process_file_returns in E.
  - right. exists e. cbn. by rewrite last_snoc.
Qed.

(** X18.  The loop over a list in two parts is the loop over the first
    part followed by the loop over the second. *)
Theorem for_files_app l1 l2 args w :
  for_files Nd_other lib_text (l1 ++ l2) args w =
  for_files Nd_other lib_text l2 args (for_files Nd_other lib_text l1 args w).2.
Proof.
  revert w. induction l1 as [|file l1 IH]; intros w; [done|].
  change ((file :: l1) ++ l2) with (file :: (l1 ++ l2)).
  by rewrite !for_files_cons, IH.
Qed.

Variable lower_other : str -> str.
Variable walk : str -> list (str * list str).
Variable listdir : str -> res (list str).

(** X19.  [main] lets one exception through, that of listing the input
    directory, raised after the start message and before any file is
    processed; when the listing succeeds [main] is the loop over the
    discovered files, which never raises. *)
Theorem main_raises_only_for_the_listing args w :
  let start := SpinnerStart (py "Retrieving list of media files..." ++ [10]) in
  Discovery.main lower_other walk listdir Nd_other lib_text args w =
  match file_paths walk listdir (input_path args) (recursive args) w with
  | (Val listed, _) =>
      (Val tt,
       logged (SpinnerSucceed (py "Run complete."))
         (foldl (after_file Nd_other lib_text args) (logged start w)
            (found lower_other [] <$> List.filter (accepted lower_other) listed)))
  | (Exc e, _) => (Exc e, logged start w)
  end.
Proof.
  cbv zeta. unfold Discovery.main, bind at 1, emit.
  unfold bind at 1. rewrite get_files_from_path_eq.
  assert (L : file_paths walk listdir (input_path args) (recursive args)
                (logged (SpinnerStart (py "Retrieving list of media files..."
                                       ++ [10])) w)
              = let (r, _) := file_paths walk listdir (input_path args)
                                (recursive args) w in
                (r, logged (SpinnerStart (py "Retrieving list of media files..."
                                          ++ [10])) w)).
  { unfold file_paths, ret, raise. destruct (recursive args); [done|].
    by destruct (listdir _). }
  rewrite L.
  destruct (file_paths _ _ _ _ w) as [[listed|e] w0]; [|done].
  assert (H : forall fl w, for_files Nd_other lib_text fl args w =
    (Val tt, foldl (after_file Nd_other lib_text args) w fl)).
  { induction fl as [|file rest IH]; intros w1; [done|].
    rewrite for_files_cons, IH. done. }
  unfold bind. by rewrite H.
Qed.

End BatchSpec.

Lemma every_file_gets_its_turn_witness :
  SpinnerText (py "Processing: " ++ file_path Examples.photo)
  ∈ out (for_files Examples.Nd_ascii (fun _ => [])
           [Examples.IMG; Examples.photo] (Examples.args false false)
           Examples.fresh_world).2.
Proof.
  refine (every_file_gets_its_turn Examples.Nd_ascii (fun _ => [])
            [Examples.IMG; Examples.photo] (Examples.args false false)
            Examples.fresh_world Examples.photo _).
  apply list_elem_of_further, list_elem_of_here.
Defined.

Lemma stamped_file_is_reported_witness :
  let w' := after_file Examples.Nd_ascii (fun _ => []) (Examples.args false false)
                       Examples.fresh_world Examples.IMG in
  files w' = files Examples.fresh_world
  \/ exists e, last (out w')
               = Some (SpinnerInfo (py "An error occurred: "
                                    ++ exn_text (fun _ => []) e)).
Proof.
  refine (stamped_file_is_reported Examples.Nd_ascii (fun _ => []) Examples.IMG
            (Examples.args false false) Examples.fresh_world _).
  vm_compute. lia.
Defined.

End BatchSpec.
